(** * Lifecycle of a single tracked target

    A shallow embedding of [libs/deep_sort/track.py]: the [TrackState]
    enumeration, the [Track] object with its counters and its three-state
    life cycle, and the two bounding-box accessors, which work on NumPy
    float64 arrays.

    Python integers are unbounded, so counters are [Z].  The Kalman filter
    and the detection are collaborators that the file only calls; they are
    taken as records of the operations the track uses. *)

From Stdlib Require Import ZArith Lia.
From Stdlib Require Import Floats.PrimFloat.
From stdpp Require Import base option list.

Set Warnings "-inexact-float".
Set Default Proof Using "Type".

Local Open Scope Z_scope.

(** ** TrackState *)

Module TrackState.

(** The class holds three integer constants; [value] gives them back. *)
Inductive t : Set := Tentative | Confirmed | Deleted.

Definition value (s : t) : Z :=
  match s with
  | Tentative => 1
  | Confirmed => 2
  | Deleted => 3
  end.

(** [self.state == TrackState.X] compares the two integers. *)
Definition eqb (a b : t) : bool := value a =? value b.

End TrackState.

(** ** The collaborators *)

Module KalmanFilter.

(** [kf.predict(mean, covariance)] and
    [kf.update(mean, covariance, measurement)], each returning the pair
    that the track unpacks into [self.mean, self.covariance]. *)
Record t (Mean Covariance Measurement : Type) : Type := Build {
  predict : Mean -> Covariance -> Mean * Covariance;
  update : Mean -> Covariance -> Measurement -> Mean * Covariance
}.
Arguments Build {_ _ _} _ _.
Arguments predict {_ _ _} _ _ _.
Arguments update {_ _ _} _ _ _ _.

End KalmanFilter.

Module Detection.

(** What [Track.update] reads from a detection: the result of
    [detection.to_xyah()] and the attribute [detection.feature]. *)
Record t (Measurement Feature : Type) : Type := Build {
  to_xyah : Measurement;
  feature : Feature
}.
Arguments Build {_ _} _ _.
Arguments to_xyah {_ _} _.
Arguments feature {_ _} _.

End Detection.

(** ** NumPy arrays of float64

    The accessors slice, copy and update arrays in place, so arrays live
    in a store and a Python value of type [ndarray] is a handle: the
    buffer it looks into and the window of that buffer it covers.  A basic
    slice such as [a[:4]] is a new handle on the same buffer; [copy] and
    every arithmetic expression allocate a new buffer.  Buffers are never
    freed (garbage collection is not modelled).  A computation that raises
    returns [None]. *)

Module Numpy.

Abbreviation buffer := (list float).
Abbreviation heap := (list buffer).

Record ndarray : Type := View {
  base : nat;
  offset : nat;
  size : nat
}.

Definition M (A : Type) : Type := heap -> option (A * heap).

Definition pure {A} (x : A) : M A := fun h => Some (x, h).

Definition raise {A} : M A := fun _ => None.

Definition bind {A B} (m : M A) (k : A -> M B) : M B :=
  fun h =>
    match m h with
    | Some (x, h') => k x h'
    | None => None
    end.

Notation "'do' x <- m ; k" := (bind m (fun x => k))
  (at level 10, x name, m at level 100, k at level 200).

(** The elements a handle covers, when its window lies inside an
    allocated buffer. *)
Definition elems (a : ndarray) (h : heap) : option (list float) :=
  match h !! base a with
  | Some buf =>
      if decide (offset a + size a <= length buf)%nat
      then Some (take (size a) (drop (offset a) buf))
      else None
  | None => None
  end.

Definition read (a : ndarray) : M (list float) :=
  fun h =>
    match elems a h with
    | Some xs => Some (xs, h)
    | None => None
    end.

(** Overwrite the window of [a] with [xs], which has [size a] elements. *)
Definition write (a : ndarray) (xs : list float) : M unit :=
  fun h =>
    match h !! base a with
    | Some buf =>
        if decide (offset a + size a <= length buf)%nat
        then Some (tt, <[base a := take (offset a) buf ++ xs
                                   ++ drop (offset a + size a) buf]> h)
        else None
    | None => None
    end.

Definition alloc (xs : list float) : M ndarray :=
  fun h => Some (View (length h) 0 (length xs), h ++ [xs]).

(** [a[lo:hi]] with non-negative bounds; [hi = None] is an omitted upper
    bound.  Bounds are clipped to the array, as NumPy does. *)
Definition slice (a : ndarray) (lo : nat) (hi : option nat) : ndarray :=
  let lo' := Nat.min lo (size a) in
  let hi' := Nat.min (default (size a) hi) (size a) in
  View (base a) (offset a + lo') (hi' - lo').

(** [a.copy()] *)
Definition copy (a : ndarray) : M ndarray :=
  do xs <- read a; alloc xs.

(** [a[i]], an IndexError when [i] is out of bounds. *)
Definition getitem (a : ndarray) (i : nat) : M float :=
  do xs <- read a;
  match xs !! i with
  | Some x => pure x
  | None => raise
  end.

(** [a[i] = v] *)
Definition setitem (a : ndarray) (i : nat) (v : float) : M unit :=
  if decide (i < size a)%nat
  then write (View (base a) (offset a + i) 1) [v]
  else raise.

(** [a / c] for a Python number [c] *)
Definition div_scalar (a : ndarray) (c : float) : M ndarray :=
  do xs <- read a; alloc (map (fun x => PrimFloat.div x c) xs).

(** [a + b]; the two operands have the same shape in every call made
    here, other shapes raise (broadcasting is not modelled). *)
Definition add (a b : ndarray) : M ndarray :=
  do xs <- read a;
  do ys <- read b;
  if decide (length xs = length ys)
  then alloc (zip_with PrimFloat.add xs ys)
  else raise.

(** [a -= b], in place through the handle [a] *)
Definition isub (a b : ndarray) : M unit :=
  do xs <- read a;
  do ys <- read b;
  if decide (length xs = length ys)
  then write a (zip_with PrimFloat.sub xs ys)
  else raise.

(** [a[...] = b] where [a] is the handle of the target slice *)
Definition assign (a b : ndarray) : M unit :=
  do ys <- read b;
  if decide (length ys = size a)
  then write a ys
  else raise.

End Numpy.

(** ** Track *)

Module Track.

Section Lifecycle.

(** [Obj] stands for the values the track only stores: [cfg] and the
    three provenance fields. *)
Context {Mean Covariance Measurement Feature Obj : Type}.

Record t : Type := Build {
  cfg : Obj;
  mean : Mean;
  covariance : Covariance;
  track_id : Z;
  hits : Z;
  age : Z;
  time_since_update : Z;
  det_confidence : Obj;
  det_class : Obj;
  det_best_bbox : Obj;
  state : TrackState.t;
  features : list Feature;
  _n_init : Z;
  _max_age : Z;
  track_line : list (Z * Z)
}.

(** [feature=None] is the default; a feature is appended to the fresh
    list only when it is not [None]. *)
Definition __init__ (cfg : Obj) (mean : Mean) (covariance : Covariance)
    (track_id n_init max_age : Z)
    (det_confidence det_class det_best_bbox : Obj)
    (feature : option Feature) : t :=
  {| cfg := cfg;
     mean := mean;
     covariance := covariance;
     track_id := track_id;
     hits := 1;
     age := 1;
     time_since_update := 0;
     det_confidence := det_confidence;
     det_class := det_class;
     det_best_bbox := det_best_bbox;
     state := TrackState.Tentative;
     features := match feature with
                 | Some f => [] ++ [f]
                 | None => []
                 end;
     _n_init := n_init;
     _max_age := max_age;
     track_line := [] |}.

(** Assignment to [self.state]. *)
Definition set_state (self : t) (s : TrackState.t) : t :=
  {| cfg := cfg self;
     mean := mean self;
     covariance := covariance self;
     track_id := track_id self;
     hits := hits self;
     age := age self;
     time_since_update := time_since_update self;
     det_confidence := det_confidence self;
     det_class := det_class self;
     det_best_bbox := det_best_bbox self;
     state := s;
     features := features self;
     _n_init := _n_init self;
     _max_age := _max_age self;
     track_line := track_line self |}.

Definition predict (self : t)
    (kf : KalmanFilter.t Mean Covariance Measurement) : t :=
  let '(m, c) := KalmanFilter.predict kf (mean self) (covariance self) in
  {| cfg := cfg self;
     mean := m;
     covariance := c;
     track_id := track_id self;
     hits := hits self;
     age := age self + 1;
     time_since_update := time_since_update self + 1;
     det_confidence := det_confidence self;
     det_class := det_class self;
     det_best_bbox := det_best_bbox self;
     state := state self;
     features := features self;
     _n_init := _n_init self;
     _max_age := _max_age self;
     track_line := track_line self |}.

Definition update (self : t)
    (kf : KalmanFilter.t Mean Covariance Measurement)
    (detection : Detection.t Measurement Feature) : t :=
  let '(m, c) :=
    KalmanFilter.update kf (mean self) (covariance self)
      (Detection.to_xyah detection) in
  let self1 :=
    {| cfg := cfg self;
       mean := m;
       covariance := c;
       track_id := track_id self;
       hits := hits self + 1;
       age := age self;
       time_since_update := 0;
       det_confidence := det_confidence self;
       det_class := det_class self;
       det_best_bbox := det_best_bbox self;
       state := state self;
       features := features self ++ [Detection.feature detection];
       _n_init := _n_init self;
       _max_age := _max_age self;
       track_line := track_line self |} in
  if TrackState.eqb (state self1) TrackState.Tentative
     && (hits self1 >=? _n_init self1)
  then set_state self1 TrackState.Confirmed
  else self1.

Definition mark_missed (self : t) : t :=
  if TrackState.eqb (state self) TrackState.Tentative
  then set_state self TrackState.Deleted
  else if time_since_update self >? _max_age self
  then set_state self TrackState.Deleted
  else self.

Definition is_tentative (self : t) : bool :=
  TrackState.eqb (state self) TrackState.Tentative.

Definition is_confirmed (self : t) : bool :=
  TrackState.eqb (state self) TrackState.Confirmed.

Definition is_deleted (self : t) : bool :=
  TrackState.eqb (state self) TrackState.Deleted.

Definition delete (self : t) : t := set_state self TrackState.Deleted.

(** *** Sequences of calls

    The owning tracker drives a track through method calls; [call]
    names the four state-changing methods and [run] applies a
    sequence of them in order. *)
Inductive call : Type :=
| Predict (kf : KalmanFilter.t Mean Covariance Measurement)
| Update (kf : KalmanFilter.t Mean Covariance Measurement)
         (detection : Detection.t Measurement Feature)
| MarkMissed
| Delete.

Definition apply (self : t) (c : call) : t :=
  match c with
  | Predict kf => predict self kf
  | Update kf d => update self kf d
  | MarkMissed => mark_missed self
  | Delete => delete self
  end.

Definition run (self : t) (cs : list call) : t := foldl apply self cs.

(** The track as it is after the first [k] calls of [cs]. *)
Definition after (self : t) (cs : list call) (k : nat) : t :=
  run self (take k cs).

Definition is_predict (c : call) : bool :=
  match c with Predict _ => true | _ => false end.

Definition is_update (c : call) : bool :=
  match c with Update _ _ => true | _ => false end.

(** The calls that can only retire a track. *)
Definition retires (c : call) : bool :=
  match c with MarkMissed | Delete => true | _ => false end.

Fixpoint count (p : call -> bool) (cs : list call) : Z :=
  match cs with
  | [] => 0
  | c :: cs' => (if p c then 1 else 0) + count p cs'
  end.

(** [is_confirmed()] is true after [k] calls and after no fewer. *)
Definition first_confirmed_at (self : t) (cs : list call) (k : nat)
    : Prop :=
  is_confirmed (after self cs k) = true
  /\ forall j, (j < k)%nat -> is_confirmed (after self cs j) = false.

(** [hits >= n] holds after [k] calls and after no fewer. *)
Definition hits_first_reach (n : Z) (self : t) (cs : list call)
    (k : nat) : Prop :=
  n <= hits (after self cs k)
  /\ forall j, (j < k)%nat -> hits (after self cs j) < n.

(** None of the first [k] calls is [mark_missed] or [delete]. *)
Definition no_retirement (cs : list call) (k : nat) : Prop :=
  Forall (fun c => retires c = false) (take k cs).

(** The two counter invariants of the data model. *)
Definition counters_ordered (self : t) : Prop :=
  1 <= hits self /\ hits self <= age self.

(** Confirmation happens at the call at which [hits] first reaches
    [n_init]. *)
Definition confirmed_when_hits_reach_n_init (self : t)
    (cs : list call) : Prop :=
  forall k,
    first_confirmed_at self cs k
    <-> hits_first_reach (_n_init self) self cs k.

(** The features that the [update] calls of a sequence append, in
    order. *)
Fixpoint fed_features (cs : list call) : list Feature :=
  match cs with
  | [] => []
  | Update _ d :: cs' => Detection.feature d :: fed_features cs'
  | _ :: cs' => fed_features cs'
  end.

(** Every [update] of the sequence comes right after a [predict], as in
    a tracker that predicts every track once per frame before it
    matches detections. *)
Fixpoint framed (cs : list call) : bool :=
  match cs with
  | [] => true
  | Predict _ :: Update _ _ :: cs' => framed cs'
  | Update _ _ :: _ => false
  | _ :: cs' => framed cs'
  end.

(** Frames in which the track is predicted and found unmatched, one per
    filter of [kfs]. *)
Definition missed_frames
    (kfs : list (KalmanFilter.t Mean Covariance Measurement))
    : list call :=
  flat_map (fun kf => [Predict kf; MarkMissed]) kfs.

End Lifecycle.

Arguments t : clear implicits.
Arguments call : clear implicits.

Section Geometry.

Import Numpy.

Context {Covariance Feature Obj : Type}.

(** Here [self.mean] is a NumPy array. *)
Definition to_tlwh (self : t ndarray Covariance Feature Obj)
    : M ndarray :=
  do ret <- copy (slice (mean self) 0 (Some 4%nat));
  do r2 <- getitem ret 2;
  do r3 <- getitem ret 3;
  do _ <- setitem ret 2 (PrimFloat.mul r2 r3);
  do half <- div_scalar (slice ret 2 None) 2%float;
  (* [ret[:2] -= half]: subtract through the slice, then store the
     slice back into [ret[:2]] *)
  do _ <- isub (slice ret 0 (Some 2%nat)) half;
  do _ <- assign (slice ret 0 (Some 2%nat)) (slice ret 0 (Some 2%nat));
  pure ret.

Definition to_tlbr (self : t ndarray Covariance Feature Obj)
    : M ndarray :=
  do ret <- to_tlwh self;
  do sum <- add (slice ret 0 (Some 2%nat)) (slice ret 2 None);
  do _ <- assign (slice ret 2 None) sum;
  pure ret.

(** What a caller reads who calls [to_tlwh()], then [to_tlbr()], and
    then looks at both results. *)
Definition boxes (self : t ndarray Covariance Feature Obj)
    : M (list float * list float) :=
  do tlwh <- to_tlwh self;
  do tlbr <- to_tlbr self;
  do b1 <- read tlwh;
  do b2 <- read tlbr;
  pure (b1, b2).

(** The corner form starts at the top-left corner and its far corner
    minus its near corner is (width, height): once with equality of
    values, once with NumPy's [==] on float64. *)
Definition corners_consistent (tlwh tlbr : list float) : Prop :=
  match tlwh, tlbr with
  | [tx; ty; w; hh], [x0; y0; x1; y1] =>
      x0 = tx /\ y0 = ty
      /\ PrimFloat.sub x1 x0 = w /\ PrimFloat.sub y1 y0 = hh
  | _, _ => False
  end.

Definition corners_consistent_b (tlwh tlbr : list float) : bool :=
  match tlwh, tlbr with
  | [tx; ty; w; hh], [x0; y0; x1; y1] =>
      PrimFloat.eqb x0 tx && PrimFloat.eqb y0 ty
      && PrimFloat.eqb (PrimFloat.sub x1 x0) w
      && PrimFloat.eqb (PrimFloat.sub y1 y0) hh
  | _, _ => false
  end.

(** The corner form starts at the top-left corner and its far corner
    is the near corner plus (width, height), added in float64. *)
Definition corners_offset (tlwh tlbr : list float) : Prop :=
  match tlwh, tlbr with
  | [tx; ty; w; hh], [x0; y0; x1; y1] =>
      x0 = tx /\ y0 = ty
      /\ x1 = PrimFloat.add tx w /\ y1 = PrimFloat.add ty hh
  | _, _ => False
  end.

End Geometry.

Section Drawing.

Context {Mean Covariance Feature Obj Image : Type}.

(** [cv2.line(image, pt1, pt2, color, thickness)]: the image it drew on,
    or [None] when the call raises (it rejects, for one, coordinates
    that do not fit a C int). *)
Variable line : Image -> Z * Z -> Z * Z -> Z * Z * Z -> Z -> option Image.

(** One round of the loop.  Indexing past the end of [track_line] raises
    (an IndexError), a raise of [cv2.line] is passed on, and no round
    runs after one that raised. *)
Definition draw_segment (self : t Mean Covariance Feature Obj)
    (image : option Image) (i : nat) : option Image :=
  match image with
  | Some image =>
      match track_line self !! (i + 1)%nat, track_line self !! i with
      | Some p1, Some p2 =>
          line image (fst p1, snd p1) (fst p2, snd p2) (255, 255, 0) 2
      | _, _ => None
      end
  | None => None
  end.


Definition draw_track_line (self : t Mean Covariance Feature Obj)
    (image : Image) : option Image :=
  if Z.of_nat (length (track_line self)) >? 1
  then foldl (draw_segment self) (Some image)
         (seq 0 (length (track_line self) - 1))
  else Some image.

End Drawing.

End Track.

(** ** A concrete tracker, to run the definitions on

    A one-dimensional constant-velocity filter: the mean is a position and
    a velocity, the covariance a single spread that grows with every
    prediction and collapses on a measurement. *)

Module Sample.

Definition kf : KalmanFilter.t (Z * Z) Z Z :=
  KalmanFilter.Build
    (fun m c => ((fst m + snd m, snd m), c + 1))
    (fun m c z => ((z, snd m), 0)).

Definition detection (z f : Z) : Detection.t Z Z := Detection.Build z f.

Definition fresh (n_init max_age : Z) : Track.t (Z * Z) Z Z unit :=
  Track.__init__ tt (10, 2) 1 7 n_init max_age tt tt tt (Some 40).

Definition predict : Track.call (Z * Z) Z Z Z := Track.Predict kf.

Definition update : Track.call (Z * Z) Z Z Z :=
  Track.Update kf (detection 12 41).

(** One processing step of the owning tracker for a matched track, and
    for an unmatched one. *)
Definition hit : list (Track.call (Z * Z) Z Z Z) := [predict; update].

Definition miss : list (Track.call (Z * Z) Z Z Z) :=
  [predict; Track.MarkMissed].

(** Tentative, with [hits = 2] and one prediction since. *)
Definition tentative : Track.t (Z * Z) Z Z unit :=
  Track.run (fresh 3 5) (hit ++ [predict]).

(** Confirmed by two hits, then [n] predictions without a match. *)
Definition confirmed (n : nat) : Track.t (Z * Z) Z Z unit :=
  Track.run (fresh 3 5) (hit ++ hit ++ replicate n predict).

(** Deleted by a miss in its second frame. *)
Definition deleted : Track.t (Z * Z) Z Z unit :=
  Track.run (fresh 3 5) miss.

(** A store with one array, the mean of a track whose box is centred at
    (10, 20) with aspect ratio 0.5 and height 4.2, at rest. *)
Definition heap : Numpy.heap := [[10; 20; 0.5; 4.2; 0; 0; 0; 0]%float].

Definition boxed : Track.t Numpy.ndarray unit unit unit :=
  Track.__init__ tt (Numpy.View 0 0 8) tt 7 3 5 tt tt tt None.

(** A store whose only array has three entries, and a track that takes
    it for its mean. *)
Definition short_heap : Numpy.heap := [[10; 20; 0.5]%float].

Definition short_boxed : Track.t Numpy.ndarray unit unit unit :=
  Track.__init__ tt (Numpy.View 0 0 3) tt 7 3 5 tt tt tt None.

End Sample.

(** * Properties *)

(** ** TrackState *)

Lemma TrackState_value_inj a b :
  TrackState.value a = TrackState.value b -> a = b.
Proof. destruct a, b; simpl; intros E; try reflexivity; discriminate E. Qed.

Lemma TrackState_eqb_eq a b : TrackState.eqb a b = true <-> a = b.
Proof.
  unfold TrackState.eqb. rewrite Z.eqb_eq. split.
  - apply TrackState_value_inj.
  - intros ->. reflexivity.
Qed.

Lemma TrackState_eqb_refl a : TrackState.eqb a a = true.
Proof. apply TrackState_eqb_eq. reflexivity. Qed.

(** ** Single calls *)

Section Calls.

Context {Mean Covariance Measurement Feature Obj : Type}.

Local Abbreviation track := (Track.t Mean Covariance Feature Obj).
Local Abbreviation filter := (KalmanFilter.t Mean Covariance Measurement).
Local Abbreviation det := (Detection.t Measurement Feature).
Local Abbreviation call := (Track.call Mean Covariance Measurement Feature).

Implicit Types (self : track) (kf : filter) (d : det) (c : call).

Lemma is_tentative_true self :
  Track.is_tentative self = true <-> Track.state self = TrackState.Tentative.
Proof. apply TrackState_eqb_eq. Qed.

Lemma is_confirmed_true self :
  Track.is_confirmed self = true <-> Track.state self = TrackState.Confirmed.
Proof. apply TrackState_eqb_eq. Qed.

Lemma is_confirmed_false self :
  Track.is_confirmed self = false <-> Track.state self <> TrackState.Confirmed.
Proof.
  rewrite <- is_confirmed_true.
  destruct (Track.is_confirmed self); split; congruence.
Qed.

Lemma is_deleted_true self :
  Track.is_deleted self = true <-> Track.state self = TrackState.Deleted.
Proof. apply TrackState_eqb_eq. Qed.

(** *** predict *)

Lemma predict_estimate self kf :
  (Track.mean (Track.predict self kf),
   Track.covariance (Track.predict self kf))
  = KalmanFilter.predict kf (Track.mean self) (Track.covariance self).
Proof.
  unfold Track.predict.
  destruct (KalmanFilter.predict kf _ _) as [m c]. reflexivity.
Qed.

Lemma predict_counters self kf :
  Track.hits (Track.predict self kf) = Track.hits self
  /\ Track.age (Track.predict self kf) = Track.age self + 1
  /\ Track.time_since_update (Track.predict self kf)
     = Track.time_since_update self + 1.
Proof.
  unfold Track.predict.
  destruct (KalmanFilter.predict kf _ _) as [m c]. auto.
Qed.

Lemma predict_state self kf :
  Track.state (Track.predict self kf) = Track.state self.
Proof.
  unfold Track.predict.
  destruct (KalmanFilter.predict kf _ _) as [m c]. reflexivity.
Qed.

Lemma predict_rest self kf :
  Track.features (Track.predict self kf) = Track.features self
  /\ Track._n_init (Track.predict self kf) = Track._n_init self
  /\ Track._max_age (Track.predict self kf) = Track._max_age self
  /\ Track.track_id (Track.predict self kf) = Track.track_id self.
Proof.
  unfold Track.predict.
  destruct (KalmanFilter.predict kf _ _) as [m c]. auto.
Qed.

(** *** update *)

Lemma update_state self kf d :
  Track.state (Track.update self kf d)
  = if TrackState.eqb (Track.state self) TrackState.Tentative
       && (Track.hits self + 1 >=? Track._n_init self)
    then TrackState.Confirmed
    else Track.state self.
Proof.
  unfold Track.update.
  destruct (KalmanFilter.update kf _ _ _) as [m c]. simpl.
  destruct (_ && _); reflexivity.
Qed.

Lemma update_estimate self kf d :
  (Track.mean (Track.update self kf d),
   Track.covariance (Track.update self kf d))
  = KalmanFilter.update kf (Track.mean self) (Track.covariance self)
      (Detection.to_xyah d).
Proof.
  unfold Track.update.
  destruct (KalmanFilter.update kf _ _ _) as [m c]. simpl.
  destruct (_ && _); reflexivity.
Qed.

Lemma update_counters self kf d :
  Track.hits (Track.update self kf d) = Track.hits self + 1
  /\ Track.age (Track.update self kf d) = Track.age self
  /\ Track.time_since_update (Track.update self kf d) = 0.
Proof.
  unfold Track.update.
  destruct (KalmanFilter.update kf _ _ _) as [m c]. simpl.
  destruct (_ && _); auto.
Qed.

Lemma update_rest self kf d :
  Track.features (Track.update self kf d)
  = Track.features self ++ [Detection.feature d]
  /\ Track._n_init (Track.update self kf d) = Track._n_init self
  /\ Track._max_age (Track.update self kf d) = Track._max_age self
  /\ Track.track_id (Track.update self kf d) = Track.track_id self.
Proof.
  unfold Track.update.
  destruct (KalmanFilter.update kf _ _ _) as [m c]. simpl.
  destruct (_ && _); auto.
Qed.

(** *** mark_missed and delete *)

Lemma mark_missed_state self :
  Track.state (Track.mark_missed self)
  = if TrackState.eqb (Track.state self) TrackState.Tentative
    then TrackState.Deleted
    else if Track.time_since_update self >? Track._max_age self
    then TrackState.Deleted
    else Track.state self.
Proof.
  unfold Track.mark_missed.
  destruct (TrackState.eqb _ _); [reflexivity|].
  destruct (_ >? _); reflexivity.
Qed.

Lemma mark_missed_set_state self :
  Track.mark_missed self
  = Track.set_state self (Track.state (Track.mark_missed self)).
Proof.
  unfold Track.mark_missed.
  destruct (TrackState.eqb _ _); [reflexivity|].
  destruct (_ >? _); [reflexivity|].
  destruct self; reflexivity.
Qed.

(** *** What each call guarantees *)

(** C6: a newly constructed track is Tentative with [hits = 1],
    [age = 1] and [time_since_update = 0]; its feature cache holds
    exactly the initial feature when one is supplied and is empty
    otherwise.  The estimate, the identifier and the two policy
    parameters are stored as given. *)
Theorem init_fresh (cfg : Obj) (mean : Mean) (covariance : Covariance)
    (track_id n_init max_age : Z) (conf cls bbox : Obj)
    (feature : option Feature) :
  let self : track :=
    Track.__init__ cfg mean covariance track_id n_init max_age
      conf cls bbox feature in
  Track.state self = TrackState.Tentative
  /\ Track.is_tentative self = true
  /\ Track.hits self = 1
  /\ Track.age self = 1
  /\ Track.time_since_update self = 0
  /\ Track.features self
     = match feature with Some f => [f] | None => [] end
  /\ Track.mean self = mean
  /\ Track.covariance self = covariance
  /\ Track.track_id self = track_id
  /\ Track._n_init self = n_init
  /\ Track._max_age self = max_age.
Proof.
  simpl. destruct feature; repeat split; reflexivity.
Qed.

(** C7: [predict] replaces [mean] and [covariance] by the pair the
    estimator's prediction returns, adds one to [age] and one to
    [time_since_update], and leaves [state], [hits] and the feature
    cache as they were. *)
Theorem predict_effects self kf :
  (Track.mean (Track.predict self kf),
   Track.covariance (Track.predict self kf))
  = KalmanFilter.predict kf (Track.mean self) (Track.covariance self)
  /\ Track.age (Track.predict self kf) = Track.age self + 1
  /\ Track.time_since_update (Track.predict self kf)
     = Track.time_since_update self + 1
  /\ Track.state (Track.predict self kf) = Track.state self
  /\ Track.hits (Track.predict self kf) = Track.hits self
  /\ Track.features (Track.predict self kf) = Track.features self.
Proof.
  pose proof (predict_counters self kf) as (Hh & Ha & Ht).
  pose proof (predict_rest self kf) as (Hf & _).
  split; [apply predict_estimate|].
  split; [exact Ha|]. split; [exact Ht|].
  split; [apply predict_state|]. split; [exact Hh|exact Hf].
Qed.

(** C3: on a Confirmed track [mark_missed] sets the state to Deleted
    exactly when [time_since_update > max_age] holds at the call, and
    leaves it Confirmed otherwise. *)
Theorem mark_missed_confirmed self :
  Track.state self = TrackState.Confirmed ->
  (Track.state (Track.mark_missed self) = TrackState.Deleted
   <-> Track.time_since_update self > Track._max_age self)
  /\ (~ Track.time_since_update self > Track._max_age self ->
      Track.state (Track.mark_missed self) = TrackState.Confirmed).
Proof.
  intros Hs. rewrite mark_missed_state, Hs. simpl.
  destruct (Z.gtb_spec (Track.time_since_update self)
              (Track._max_age self)) as [Hgt|Hle].
  - split; [split; [lia|reflexivity]|lia].
  - split; [split; [discriminate|lia]|reflexivity].
Qed.

(** C4: on a Tentative track [mark_missed] sets the state to Deleted,
    whatever [time_since_update] and [max_age] are. *)
Theorem mark_missed_tentative self :
  Track.state self = TrackState.Tentative ->
  Track.state (Track.mark_missed self) = TrackState.Deleted
  /\ Track.is_deleted (Track.mark_missed self) = true.
Proof.
  intros Hs.
  assert (Track.state (Track.mark_missed self) = TrackState.Deleted) as H.
  { rewrite mark_missed_state, Hs. reflexivity. }
  split; [exact H|]. apply is_deleted_true, H.
Qed.

(** C9: on a Deleted track [update] still replaces [mean] and
    [covariance] by the estimator's measurement update, appends the
    detection's feature to the cache, adds one to [hits] and resets
    [time_since_update] to 0; the state stays Deleted. *)
Theorem update_deleted self kf d :
  Track.state self = TrackState.Deleted ->
  (Track.mean (Track.update self kf d),
   Track.covariance (Track.update self kf d))
  = KalmanFilter.update kf (Track.mean self) (Track.covariance self)
      (Detection.to_xyah d)
  /\ Track.features (Track.update self kf d)
     = Track.features self ++ [Detection.feature d]
  /\ Track.hits (Track.update self kf d) = Track.hits self + 1
  /\ Track.time_since_update (Track.update self kf d) = 0
  /\ Track.state (Track.update self kf d) = TrackState.Deleted.
Proof.
  intros Hs.
  pose proof (update_counters self kf d) as (Hh & _ & Ht).
  pose proof (update_rest self kf d) as (Hf & _).
  split; [apply update_estimate|].
  split; [exact Hf|]. split; [exact Hh|]. split; [exact Ht|].
  rewrite update_state, Hs. reflexivity.
Qed.

(** C10: [mark_missed] changes no field other than [state]: [hits],
    [age], [time_since_update], [mean], [covariance] and the feature
    cache are the same after the call, in every state (and so are the
    remaining fields: the result is the track with a new state). *)
Theorem mark_missed_frame self :
  Track.hits (Track.mark_missed self) = Track.hits self
  /\ Track.age (Track.mark_missed self) = Track.age self
  /\ Track.time_since_update (Track.mark_missed self)
     = Track.time_since_update self
  /\ Track.mean (Track.mark_missed self) = Track.mean self
  /\ Track.covariance (Track.mark_missed self) = Track.covariance self
  /\ Track.features (Track.mark_missed self) = Track.features self
  /\ Track.mark_missed self
     = Track.set_state self (Track.state (Track.mark_missed self)).
Proof.
  pose proof (mark_missed_set_state self) as E.
  repeat split; try exact E; rewrite E; reflexivity.
Qed.

End Calls.

(** ** Sequences of calls *)

Section Traces.

Context {Mean Covariance Measurement Feature Obj : Type}.

Local Abbreviation track := (Track.t Mean Covariance Feature Obj).
Local Abbreviation call := (Track.call Mean Covariance Measurement Feature).

Implicit Types (self : track) (c : call) (cs : list call).

Lemma run_snoc self cs c :
  Track.run self (cs ++ [c]) = Track.apply (Track.run self cs) c.
Proof. unfold Track.run. rewrite foldl_app. reflexivity. Qed.

Lemma count_snoc (p : call -> bool) cs c :
  Track.count p (cs ++ [c]) = Track.count p cs + (if p c then 1 else 0).
Proof.
  induction cs as [|c' cs IH]; simpl.
  - lia.
  - rewrite IH. lia.
Qed.

Lemma count_nonneg (p : call -> bool) cs : 0 <= Track.count p cs.
Proof.
  induction cs as [|c' cs IH]; simpl; [lia|].
  destruct (p c'); lia.
Qed.

(** What one call does to the counters and to the policy parameters. *)

Lemma apply_hits self c :
  Track.hits (Track.apply self c)
  = Track.hits self + (if Track.is_update c then 1 else 0).
Proof.
  destruct c as [kf|kf d| |]; simpl.
  - pose proof (predict_counters self kf) as (H & _). lia.
  - pose proof (update_counters self kf d) as (H & _). lia.
  - rewrite mark_missed_set_state. simpl. lia.
  - lia.
Qed.

Lemma apply_age self c :
  Track.age (Track.apply self c)
  = Track.age self + (if Track.is_predict c then 1 else 0).
Proof.
  destruct c as [kf|kf d| |]; simpl.
  - pose proof (predict_counters self kf) as (_ & H & _). lia.
  - pose proof (update_counters self kf d) as (_ & H & _). lia.
  - rewrite mark_missed_set_state. simpl. lia.
  - lia.
Qed.

Lemma apply_time_since_update self c :
  0 <= Track.time_since_update self ->
  0 <= Track.time_since_update (Track.apply self c).
Proof.
  intros H. destruct c as [kf|kf d| |]; simpl.
  - pose proof (predict_counters self kf) as (_ & _ & E). lia.
  - pose proof (update_counters self kf d) as (_ & _ & E). lia.
  - rewrite mark_missed_set_state. simpl. exact H.
  - exact H.
Qed.

Lemma apply_n_init self c :
  Track._n_init (Track.apply self c) = Track._n_init self.
Proof.
  destruct c as [kf|kf d| |]; simpl.
  - apply (predict_rest self kf).
  - apply (update_rest self kf d).
  - rewrite mark_missed_set_state. reflexivity.
  - reflexivity.
Qed.

(** What one call does to the state. *)

Lemma apply_deleted self c :
  Track.state self = TrackState.Deleted ->
  Track.state (Track.apply self c) = TrackState.Deleted.
Proof.
  intros Hs. destruct c as [kf|kf d| |]; simpl.
  - rewrite predict_state. exact Hs.
  - rewrite update_state, Hs. reflexivity.
  - rewrite mark_missed_state, Hs. simpl.
    destruct (_ >? _); reflexivity.
  - reflexivity.
Qed.

Lemma apply_retires self c :
  Track.retires c = true ->
  Track.state (Track.apply self c) <> TrackState.Tentative.
Proof.
  destruct c as [kf|kf d| |]; simpl; intros R; try discriminate R.
  - rewrite mark_missed_state.
    destruct (TrackState.eqb _ _) eqn:E; [discriminate|].
    destruct (_ >? _); [discriminate|].
    intros H. apply TrackState_eqb_eq in H. congruence.
  - discriminate.
Qed.

(** A call that leaves the track Tentative found it Tentative. *)
Lemma apply_tentative_inv self c :
  Track.state (Track.apply self c) = TrackState.Tentative ->
  Track.state self = TrackState.Tentative /\ Track.retires c = false.
Proof.
  intros H. destruct (Track.retires c) eqn:R.
  - exfalso. exact (apply_retires self c R H).
  - split; [|reflexivity].
    destruct c as [kf|kf d| |]; simpl in *; try discriminate.
    + rewrite predict_state in H. exact H.
    + rewrite update_state in H.
      destruct (_ && _); [discriminate|exact H].
Qed.

(** The only way into Confirmed: an [update] of a Tentative track that
    brings [hits] to [n_init] or above. *)
Lemma apply_confirms self c :
  Track.state self <> TrackState.Confirmed ->
  Track.state (Track.apply self c) = TrackState.Confirmed ->
  (exists kf d, c = Track.Update kf d)
  /\ Track.state self = TrackState.Tentative
  /\ Track._n_init self <= Track.hits self + 1.
Proof.
  intros Hn H. destruct c as [kf|kf d| |]; simpl in H.
  - rewrite predict_state in H. contradiction.
  - rewrite update_state in H.
    destruct (TrackState.eqb _ _) eqn:E; simpl in H; [|contradiction].
    destruct (Z.geb_spec (Track.hits self + 1) (Track._n_init self));
      [|contradiction].
    apply TrackState_eqb_eq in E. split; [eauto|]. split; [exact E|lia].
  - rewrite mark_missed_state in H.
    destruct (TrackState.eqb _ _); [discriminate|].
    destruct (_ >? _); [discriminate|contradiction].
  - discriminate.
Qed.

(** The same facts along a sequence. *)

Lemma run_hits self cs :
  Track.hits (Track.run self cs)
  = Track.hits self + Track.count Track.is_update cs.
Proof.
  induction cs as [|c cs IH] using rev_ind.
  - simpl. lia.
  - rewrite run_snoc, apply_hits, IH, count_snoc. lia.
Qed.

Lemma run_age self cs :
  Track.age (Track.run self cs)
  = Track.age self + Track.count Track.is_predict cs.
Proof.
  induction cs as [|c cs IH] using rev_ind.
  - simpl. lia.
  - rewrite run_snoc, apply_age, IH, count_snoc. lia.
Qed.

Lemma run_time_since_update self cs :
  0 <= Track.time_since_update self ->
  0 <= Track.time_since_update (Track.run self cs).
Proof.
  intros H. induction cs as [|c cs IH] using rev_ind.
  - exact H.
  - rewrite run_snoc. apply apply_time_since_update, IH.
Qed.

Lemma run_n_init self cs :
  Track._n_init (Track.run self cs) = Track._n_init self.
Proof.
  induction cs as [|c cs IH] using rev_ind.
  - reflexivity.
  - rewrite run_snoc, apply_n_init. exact IH.
Qed.

Lemma run_tentative_inv self cs :
  Track.state (Track.run self cs) = TrackState.Tentative ->
  Forall (fun c => Track.retires c = false) cs.
Proof.
  induction cs as [|c cs IH] using rev_ind; intros H.
  - constructor.
  - rewrite run_snoc in H. apply apply_tentative_inv in H as [H R].
    apply Forall_app. split; [apply IH, H|]. constructor; [exact R|constructor].
Qed.

(** C5: once the state is Deleted, no sequence of later calls
    ([predict], [update], [mark_missed], and [delete] as well) changes
    it. *)
Theorem deleted_is_terminal self cs :
  Track.state self = TrackState.Deleted ->
  Track.state (Track.run self cs) = TrackState.Deleted
  /\ Track.is_deleted (Track.run self cs) = true.
Proof.
  intros Hs.
  assert (Track.state (Track.run self cs) = TrackState.Deleted) as H.
  { induction cs as [|c cs IH] using rev_ind.
    - exact Hs.
    - rewrite run_snoc. apply apply_deleted, IH. }
  split; [exact H|]. apply is_deleted_true, H.
Qed.

(** C2, as the code has it: after any sequence of calls on a new track,
    [hits] is one more than the number of [update] calls and [age] one
    more than the number of [predict] calls.  So [hits >= 1],
    [age >= 1] and [time_since_update >= 0] always hold, and
    [age >= hits] holds exactly when the sequence has at least as many
    [predict] calls as [update] calls. *)
Theorem counters_after_run (cfg : Obj) (mean : Mean)
    (covariance : Covariance) (track_id n_init max_age : Z)
    (conf cls bbox : Obj) (feature : option Feature) cs :
  let self : track :=
    Track.run
      (Track.__init__ cfg mean covariance track_id n_init max_age
         conf cls bbox feature) cs in
  Track.hits self = 1 + Track.count Track.is_update cs
  /\ Track.age self = 1 + Track.count Track.is_predict cs
  /\ 1 <= Track.hits self
  /\ 1 <= Track.age self
  /\ 0 <= Track.time_since_update self
  /\ (Track.hits self <= Track.age self
      <-> Track.count Track.is_update cs
          <= Track.count Track.is_predict cs).
Proof.
  intros self. subst self.
  rewrite run_hits, run_age. simpl.
  pose proof (count_nonneg Track.is_update cs).
  pose proof (count_nonneg Track.is_predict cs).
  repeat split; try lia.
  apply run_time_since_update. simpl. lia.
Qed.

(** *** When a new track is confirmed *)

(** While no call retires the track, its state is a function of
    [hits]: Confirmed once [hits] has reached [max n_init 2], Tentative
    before. *)
Lemma run_state_of_hits self cs :
  Track.state self = TrackState.Tentative ->
  Track.hits self = 1 ->
  Forall (fun c => Track.retires c = false) cs ->
  Track.state (Track.run self cs)
  = if Z.max (Track._n_init self) 2 <=? Track.hits (Track.run self cs)
    then TrackState.Confirmed
    else TrackState.Tentative.
Proof.
  intros Hs Hh. induction cs as [|c cs IH] using rev_ind; intros Hall.
  - simpl. rewrite Hs, Hh.
    destruct (Z.leb_spec (Z.max (Track._n_init self) 2) 1);
      [lia|reflexivity].
  - apply Forall_app in Hall as [Hcs Hc].
    apply Forall_inv in Hc. specialize (IH Hcs).
    rewrite run_snoc.
    pose proof (run_hits self cs) as Hhits.
    pose proof (count_nonneg Track.is_update cs) as Hnn.
    pose proof (run_n_init self cs) as Hn.
    set (t := Track.run self cs) in *.
    destruct c as [kf|kf d| |]; simpl in Hc; try discriminate Hc; simpl.
    + rewrite predict_state.
      pose proof (predict_counters t kf) as (-> & _). exact IH.
    + rewrite update_state.
      pose proof (update_counters t kf d) as (-> & _).
      rewrite IH, Hn.
      destruct (Z.leb_spec (Z.max (Track._n_init self) 2) (Track.hits t));
        simpl.
      * destruct (Z.leb_spec (Z.max (Track._n_init self) 2)
                    (Track.hits t + 1)); [reflexivity|lia].
      * destruct (Z.geb_spec (Track.hits t + 1) (Track._n_init self));
          destruct (Z.leb_spec (Z.max (Track._n_init self) 2)
                      (Track.hits t + 1)); try reflexivity; lia.
Qed.

Lemma after_state_of_hits self cs k j :
  Track.state self = TrackState.Tentative ->
  Track.hits self = 1 ->
  Track.no_retirement cs k ->
  (j <= k)%nat ->
  Track.state (Track.after self cs j)
  = if Z.max (Track._n_init self) 2 <=? Track.hits (Track.after self cs j)
    then TrackState.Confirmed
    else TrackState.Tentative.
Proof.
  intros Hs Hh Hk Hj. unfold Track.after.
  apply run_state_of_hits; [exact Hs|exact Hh|].
  replace (take j cs) with (take j (take k cs)).
  - apply Forall_take, Hk.
  - rewrite take_take. f_equal. lia.
Qed.

(** A track that is first confirmed after [k] calls saw no
    [mark_missed] and no [delete] among them. *)
Lemma first_confirmed_no_retirement self cs k :
  Track.state self = TrackState.Tentative ->
  Track.first_confirmed_at self cs k ->
  Track.no_retirement cs k.
Proof.
  intros Hs [Hk Hbefore]. unfold Track.no_retirement.
  apply is_confirmed_true in Hk.
  destruct k as [|k].
  - constructor.
  - specialize (Hbefore k (Nat.lt_succ_diag_r k)).
    apply is_confirmed_false in Hbefore.
    unfold Track.after in *.
    destruct (cs !! k) as [c|] eqn:Hc.
    + rewrite (take_S_r _ _ _ Hc) in Hk |- *.
      rewrite run_snoc in Hk.
      destruct (apply_confirms _ _ Hbefore Hk) as ((kf & d & ->) & Ht & _).
      apply Forall_app. split.
      * apply (run_tentative_inv self), Ht.
      * constructor; [reflexivity|constructor].
    + apply lookup_ge_None in Hc.
      rewrite take_ge in Hk by lia. rewrite take_ge in Hbefore by lia.
      contradiction.
Qed.

Lemma first_confirmed_iff self cs k :
  Track.state self = TrackState.Tentative ->
  Track.hits self = 1 ->
  Track.first_confirmed_at self cs k
  <-> Track.hits_first_reach (Z.max (Track._n_init self) 2) self cs k
      /\ Track.no_retirement cs k.
Proof.
  intros Hs Hh. split.
  - intros Hfirst.
    pose proof (first_confirmed_no_retirement self cs k Hs Hfirst) as Hk.
    split; [|exact Hk].
    destruct Hfirst as [Hc Hbefore]. split.
    + apply is_confirmed_true in Hc.
      rewrite (after_state_of_hits self cs k k Hs Hh Hk) in Hc by lia.
      destruct (Z.leb_spec (Z.max (Track._n_init self) 2)
                  (Track.hits (Track.after self cs k)));
        [assumption|discriminate].
    + intros j Hj. specialize (Hbefore j Hj).
      apply is_confirmed_false in Hbefore.
      rewrite (after_state_of_hits self cs k j Hs Hh Hk) in Hbefore by lia.
      destruct (Z.leb_spec (Z.max (Track._n_init self) 2)
                  (Track.hits (Track.after self cs j)));
        [contradiction|assumption].
  - intros [[Hreach Hbefore] Hk]. split.
    + apply is_confirmed_true.
      rewrite (after_state_of_hits self cs k k Hs Hh Hk) by lia.
      destruct (Z.leb_spec (Z.max (Track._n_init self) 2)
                  (Track.hits (Track.after self cs k))); [reflexivity|lia].
    + intros j Hj. specialize (Hbefore j Hj).
      apply is_confirmed_false.
      rewrite (after_state_of_hits self cs k j Hs Hh Hk) by lia.
      destruct (Z.leb_spec (Z.max (Track._n_init self) 2)
                  (Track.hits (Track.after self cs j)));
        [lia|discriminate].
Qed.

(** C1, as the code has it: a new track is Tentative; a call turns an
    unconfirmed track into a Confirmed one only if it is an [update] of
    a Tentative track whose [hits], once incremented, is at least
    [n_init]; and along any sequence of calls on a new track,
    [is_confirmed()] first becomes true at the call at which [hits]
    first reaches [max n_init 2], provided no [mark_missed] and no
    [delete] came before, and at no other call. *)
Theorem confirmed_exactly_when (cfg : Obj) (mean : Mean)
    (covariance : Covariance) (track_id n_init max_age : Z)
    (conf cls bbox : Obj) (feature : option Feature) :
  let self : track :=
    Track.__init__ cfg mean covariance track_id n_init max_age
      conf cls bbox feature in
  Track.is_tentative self = true
  /\ (forall (t : track) c,
        Track.is_confirmed t = false ->
        Track.is_confirmed (Track.apply t c) = true ->
        (exists kf d, c = Track.Update kf d)
        /\ Track.is_tentative t = true
        /\ Track._n_init t <= Track.hits (Track.apply t c))
  /\ (forall cs k,
        Track.first_confirmed_at self cs k
        <-> Track.hits_first_reach (Z.max n_init 2) self cs k
            /\ Track.no_retirement cs k).
Proof.
  intros self. split; [reflexivity|]. split.
  - intros t c Hn Hc.
    apply is_confirmed_false in Hn. apply is_confirmed_true in Hc.
    destruct (apply_confirms t c Hn Hc) as (Hu & Ht & Hle).
    split; [exact Hu|]. split; [apply is_tentative_true, Ht|].
    rewrite apply_hits. destruct Hu as (kf & d & ->). simpl. lia.
  - intros cs k.
    apply (first_confirmed_iff self cs k); reflexivity.
Qed.

End Traces.

(** ** Arrays *)

Section Arrays.

Import Numpy.

Implicit Types (h ext : heap) (v : ndarray) (xs ys buf : list float).

Lemma bind_Some {A B} (m : M A) (k : A -> M B) h x h' :
  m h = Some (x, h') -> bind m k h = k x h'.
Proof. unfold bind. intros ->. reflexivity. Qed.

Lemma elems_lookup v h buf :
  h !! base v = Some buf ->
  (offset v + size v <= length buf)%nat ->
  elems v h = Some (take (size v) (drop (offset v) buf)).
Proof.
  intros Hb Hle. unfold elems. rewrite Hb.
  destruct (decide _); [reflexivity|contradiction].
Qed.

Lemma elems_base v h xs : elems v h = Some xs -> (base v < length h)%nat.
Proof.
  unfold elems. destruct (h !! base v) eqn:E; [|discriminate].
  intros _. apply lookup_lt_Some in E. exact E.
Qed.

(** Buffers allocated later do not change what a handle covers. *)
Lemma elems_app v h ext xs :
  elems v h = Some xs -> elems v (h ++ ext) = Some xs.
Proof.
  intros He. pose proof (elems_base _ _ _ He) as Hlt.
  unfold elems in *. rewrite lookup_app_l by exact Hlt. exact He.
Qed.

Lemma heap_lookup_fresh h ext i :
  (h ++ ext) !! (length h + i)%nat = ext !! i.
Proof. rewrite lookup_app_r by lia. f_equal. lia. Qed.

Lemma read_spec v h xs : elems v h = Some xs -> read v h = Some (xs, h).
Proof. unfold read. intros ->. reflexivity. Qed.

Lemma getitem_spec v i h xs x :
  elems v h = Some xs -> xs !! i = Some x -> getitem v i h = Some (x, h).
Proof.
  intros He Hi. unfold getitem.
  rewrite (bind_Some _ _ _ _ _ (read_spec _ _ _ He)), Hi. reflexivity.
Qed.

Lemma write_spec v xs h buf :
  h !! base v = Some buf ->
  (offset v + size v <= length buf)%nat ->
  write v xs h
  = Some (tt, <[base v := take (offset v) buf ++ xs
                          ++ drop (offset v + size v) buf]> h).
Proof.
  intros Hb Hle. unfold write. rewrite Hb.
  destruct (decide _); [reflexivity|contradiction].
Qed.

(** The same operations on the arrays allocated since [h]; they are
    the entries of [ext], at the addresses [length h + i]. *)

Lemma elems_fresh h ext i o n buf :
  ext !! i = Some buf ->
  (o + n <= length buf)%nat ->
  elems (View (length h + i) o n) (h ++ ext)
  = Some (take n (drop o buf)).
Proof.
  intros Hi Hle. apply elems_lookup; [|exact Hle].
  simpl. rewrite heap_lookup_fresh. exact Hi.
Qed.

Lemma write_fresh h ext i o n buf xs :
  ext !! i = Some buf ->
  (o + n <= length buf)%nat ->
  write (View (length h + i) o n) xs (h ++ ext)
  = Some (tt, h ++ <[i := take o buf ++ xs ++ drop (o + n) buf]> ext).
Proof.
  intros Hi Hle.
  rewrite (write_spec _ xs _ buf);
    [|simpl; rewrite heap_lookup_fresh; exact Hi|exact Hle].
  simpl. rewrite insert_app_r. reflexivity.
Qed.

Lemma alloc_fresh h ext xs :
  alloc xs (h ++ ext)
  = Some (View (length h + length ext) 0 (length xs), h ++ (ext ++ [xs])).
Proof. unfold alloc. rewrite length_app, <- app_assoc. reflexivity. Qed.

Lemma getitem_fresh h ext i o n j buf x :
  ext !! i = Some buf ->
  (o + n <= length buf)%nat ->
  take n (drop o buf) !! j = Some x ->
  getitem (View (length h + i) o n) j (h ++ ext) = Some (x, h ++ ext).
Proof.
  intros Hi Hle Hj.
  exact (getitem_spec _ _ _ _ _ (elems_fresh h ext i o n buf Hi Hle) Hj).
Qed.

Lemma setitem_fresh h ext i o n j buf x :
  (j < n)%nat ->
  ext !! i = Some buf ->
  (o + j + 1 <= length buf)%nat ->
  setitem (View (length h + i) o n) j x (h ++ ext)
  = Some (tt, h ++ <[i := take (o + j) buf ++ [x]
                          ++ drop (o + j + 1) buf]> ext).
Proof.
  intros Hj Hi Hle. unfold setitem. simpl.
  destruct (decide _); [|contradiction].
  apply write_fresh; assumption.
Qed.

Lemma div_scalar_fresh h ext i o n buf c :
  ext !! i = Some buf ->
  (o + n <= length buf)%nat ->
  div_scalar (View (length h + i) o n) c (h ++ ext)
  = Some (View (length h + length ext) 0
            (length (take n (drop o buf))),
          h ++ (ext ++ [map (fun x => PrimFloat.div x c)
                          (take n (drop o buf))])).
Proof.
  intros Hi Hle. unfold div_scalar.
  rewrite (bind_Some _ _ _ _ _
             (read_spec _ _ _ (elems_fresh h ext i o n buf Hi Hle))).
  rewrite alloc_fresh, length_map. reflexivity.
Qed.

Lemma add_fresh h ext i o n buf i' o' n' buf' :
  ext !! i = Some buf ->
  (o + n <= length buf)%nat ->
  ext !! i' = Some buf' ->
  (o' + n' <= length buf')%nat ->
  length (take n (drop o buf)) = length (take n' (drop o' buf')) ->
  add (View (length h + i) o n) (View (length h + i') o' n') (h ++ ext)
  = Some (View (length h + length ext) 0 (length (take n (drop o buf))),
          h ++ (ext ++ [zip_with PrimFloat.add (take n (drop o buf))
                          (take n' (drop o' buf'))])).
Proof.
  intros Hi Hle Hi' Hle' Hlen. unfold add.
  rewrite (bind_Some _ _ _ _ _
             (read_spec _ _ _ (elems_fresh h ext i o n buf Hi Hle))).
  rewrite (bind_Some _ _ _ _ _
             (read_spec _ _ _ (elems_fresh h ext i' o' n' buf' Hi' Hle'))).
  destruct (decide _); [|contradiction].
  rewrite alloc_fresh, length_zip_with, <- Hlen, Nat.min_id. reflexivity.
Qed.

Lemma isub_fresh h ext i o n buf i' o' n' buf' :
  ext !! i = Some buf ->
  (o + n <= length buf)%nat ->
  ext !! i' = Some buf' ->
  (o' + n' <= length buf')%nat ->
  length (take n (drop o buf)) = length (take n' (drop o' buf')) ->
  isub (View (length h + i) o n) (View (length h + i') o' n') (h ++ ext)
  = Some (tt, h ++ <[i := take o buf
                          ++ zip_with PrimFloat.sub (take n (drop o buf))
                               (take n' (drop o' buf'))
                          ++ drop (o + n) buf]> ext).
Proof.
  intros Hi Hle Hi' Hle' Hlen. unfold isub.
  rewrite (bind_Some _ _ _ _ _
             (read_spec _ _ _ (elems_fresh h ext i o n buf Hi Hle))).
  rewrite (bind_Some _ _ _ _ _
             (read_spec _ _ _ (elems_fresh h ext i' o' n' buf' Hi' Hle'))).
  destruct (decide _); [|contradiction].
  apply write_fresh; assumption.
Qed.

Lemma assign_fresh h ext i o n buf i' o' n' buf' :
  ext !! i = Some buf ->
  (o + n <= length buf)%nat ->
  ext !! i' = Some buf' ->
  (o' + n' <= length buf')%nat ->
  length (take n' (drop o' buf')) = n ->
  assign (View (length h + i) o n) (View (length h + i') o' n') (h ++ ext)
  = Some (tt, h ++ <[i := take o buf ++ take n' (drop o' buf')
                          ++ drop (o + n) buf]> ext).
Proof.
  intros Hi Hle Hi' Hle' Hlen. unfold assign.
  rewrite (bind_Some _ _ _ _ _
             (read_spec _ _ _ (elems_fresh h ext i' o' n' buf' Hi' Hle'))).
  simpl. destruct (decide _); [|contradiction].
  apply write_fresh; assumption.
Qed.

Local Arguments bind : simpl never.
Local Arguments pure : simpl never.
Local Arguments getitem : simpl never.
Local Arguments setitem : simpl never.
Local Arguments div_scalar : simpl never.
Local Arguments add : simpl never.
Local Arguments isub : simpl never.
Local Arguments assign : simpl never.
Local Arguments elems : simpl never.

Ltac side := first [reflexivity | simpl; lia].
Ltac step lem :=
  erewrite bind_Some by (eapply lem; side);
  cbv beta; unfold slice; simpl.

(** [to_tlwh] allocates the result and one temporary, and writes to
    nothing else. *)
Lemma to_tlwh_spec {Covariance Feature Obj}
    (self : Track.t ndarray Covariance Feature Obj) h (x y a hh : float) :
  elems (slice (Track.mean self) 0 (Some 4%nat)) h = Some [x; y; a; hh] ->
  let w := PrimFloat.mul a hh in
  Track.to_tlwh self h
  = Some (View (length h + 0) 0 4,
          h ++ [[PrimFloat.sub x (PrimFloat.div w 2);
                 PrimFloat.sub y (PrimFloat.div hh 2); w; hh];
                [PrimFloat.div w 2; PrimFloat.div hh 2]]).
Proof.
  intros He w. unfold Track.to_tlwh.
  rewrite (bind_Some _ _ h (View (length h + 0) 0 4) (h ++ [[x; y; a; hh]])).
  2:{ unfold copy. rewrite (bind_Some _ _ _ _ _ (read_spec _ _ _ He)).
      unfold alloc. simpl. rewrite Nat.add_0_r. reflexivity. }
  step getitem_fresh.
  step getitem_fresh.
  step setitem_fresh.
  step div_scalar_fresh.
  step isub_fresh.
  step assign_fresh.
  reflexivity.
Qed.

(** [to_tlbr] calls [to_tlwh] and overwrites the last two entries of
    its result, through one more temporary. *)
Lemma to_tlbr_spec {Covariance Feature Obj}
    (self : Track.t ndarray Covariance Feature Obj) h (x y a hh : float) :
  elems (slice (Track.mean self) 0 (Some 4%nat)) h = Some [x; y; a; hh] ->
  let w := PrimFloat.mul a hh in
  let tx := PrimFloat.sub x (PrimFloat.div w 2) in
  let ty := PrimFloat.sub y (PrimFloat.div hh 2) in
  Track.to_tlbr self h
  = Some (View (length h + 0) 0 4,
          h ++ [[tx; ty; PrimFloat.add tx w; PrimFloat.add ty hh];
                [PrimFloat.div w 2; PrimFloat.div hh 2];
                [PrimFloat.add tx w; PrimFloat.add ty hh]]).
Proof.
  intros He w tx ty. unfold Track.to_tlbr.
  rewrite (bind_Some _ _ _ _ _ (to_tlwh_spec self h x y a hh He)).
  cbv beta. unfold slice. simpl.
  step add_fresh.
  step assign_fresh.
  reflexivity.
Qed.

(** C8, as the code has it: on a track whose mean holds at least four
    entries [x; y; a; hh], calling [to_tlwh()] and then [to_tlbr()]
    returns the top-left form [tx; ty; w; hh] with [w = a * hh],
    [tx = x - w / 2], [ty = y - hh / 2], and a corner form with the same
    first two entries and with far corner [tx + w], [ty + hh], all in
    float64 arithmetic.  The store afterwards is the store before with
    new arrays appended: no array that existed is written to, so the
    mean (and every other array) reads as before.  Nothing is stated
    about the far corner minus the near corner: float64 rounding can
    make it differ from (width, height). *)
Theorem to_tlbr_matches_to_tlwh {Covariance Feature Obj}
    (self : Track.t ndarray Covariance Feature Obj) h (x y a hh : float) :
  elems (slice (Track.mean self) 0 (Some 4%nat)) h = Some [x; y; a; hh] ->
  let w := PrimFloat.mul a hh in
  let tx := PrimFloat.sub x (PrimFloat.div w 2) in
  let ty := PrimFloat.sub y (PrimFloat.div hh 2) in
  exists ext,
    Track.boxes self h
    = Some (([tx; ty; w; hh],
             [tx; ty; PrimFloat.add tx w; PrimFloat.add ty hh]),
            h ++ ext)
    /\ Track.corners_offset [tx; ty; w; hh]
         [tx; ty; PrimFloat.add tx w; PrimFloat.add ty hh]
    /\ elems (Track.mean self) (h ++ ext) = elems (Track.mean self) h
    /\ (forall v xs, elems v h = Some xs -> elems v (h ++ ext) = Some xs).
Proof.
  intros He w tx ty.
  set (r := [tx; ty; w; hh]).
  set (q := [PrimFloat.div w 2; PrimFloat.div hh 2]).
  set (r' := [tx; ty; PrimFloat.add tx w; PrimFloat.add ty hh]).
  set (s := [PrimFloat.add tx w; PrimFloat.add ty hh]).
  exists ([r; q] ++ [r'; q; s]).
  split; [|split; [|split]].
  - unfold Track.boxes.
    rewrite (bind_Some _ _ _ _ _ (to_tlwh_spec self h x y a hh He)).
    cbv beta. fold w tx ty r q.
    rewrite (bind_Some _ _ _ _ _
               (to_tlbr_spec self (h ++ [r; q]) x y a hh
                  (elems_app _ _ _ _ He))).
    cbv beta. fold w tx ty r' q s.
    rewrite <- (app_assoc h [r; q] [r'; q; s]).
    erewrite bind_Some
      by (eapply read_spec, (elems_fresh h _ 0 0 4 r); side).
    cbv beta. rewrite (app_assoc h [r; q] [r'; q; s]).
    erewrite bind_Some
      by (eapply read_spec, (elems_fresh (h ++ [r; q]) _ 0 0 4 r'); side).
    reflexivity.
  - repeat split.
  - pose proof (elems_base _ _ _ He) as Hlt. simpl in Hlt.
    unfold elems. rewrite lookup_app_l by exact Hlt. reflexivity.
  - intros v xs Hv. apply elems_app, Hv.
Qed.

End Arrays.

(** ** The statements on concrete tracks *)

(** A Confirmed track with [max_age = 5]: after six predictions without a
    match [mark_missed] deletes it, after five it does not. *)
Lemma mark_missed_confirmed_sample :
  (Track.state (Sample.confirmed 6) = TrackState.Confirmed
   /\ Track.time_since_update (Sample.confirmed 6) = 6
   /\ Track.state (Track.mark_missed (Sample.confirmed 6))
      = TrackState.Deleted)
  /\ (Track.state (Sample.confirmed 5) = TrackState.Confirmed
      /\ Track.time_since_update (Sample.confirmed 5) = 5
      /\ Track.state (Track.mark_missed (Sample.confirmed 5))
         = TrackState.Confirmed).
Proof.
  split.
  - split; [reflexivity|]. split; [reflexivity|].
    apply (mark_missed_confirmed (Sample.confirmed 6)); [reflexivity|].
    vm_compute. reflexivity.
  - split; [reflexivity|]. split; [reflexivity|].
    apply (mark_missed_confirmed (Sample.confirmed 5)); [reflexivity|].
    vm_compute. intros H. discriminate H.
Defined.

Lemma mark_missed_tentative_sample :
  Track.state Sample.tentative = TrackState.Tentative
  /\ Track.state (Track.mark_missed Sample.tentative) = TrackState.Deleted
  /\ Track.is_deleted (Track.mark_missed Sample.tentative) = true.
Proof.
  split; [reflexivity|].
  apply (mark_missed_tentative Sample.tentative). reflexivity.
Defined.

Lemma deleted_is_terminal_sample :
  Track.state Sample.deleted = TrackState.Deleted
  /\ Track.state
       (Track.run Sample.deleted
          (Sample.hit ++ Sample.miss ++ Sample.hit ++ [Track.Delete]))
     = TrackState.Deleted.
Proof.
  split; [reflexivity|].
  apply (deleted_is_terminal Sample.deleted). reflexivity.
Defined.

Lemma update_deleted_sample :
  Track.state Sample.deleted = TrackState.Deleted
  /\ Track.hits (Track.update Sample.deleted Sample.kf
                   (Sample.detection 12 41)) = 2
  /\ Track.state (Track.update Sample.deleted Sample.kf
                    (Sample.detection 12 41)) = TrackState.Deleted.
Proof.
  split; [reflexivity|].
  destruct (update_deleted Sample.deleted Sample.kf
              (Sample.detection 12 41) eq_refl)
    as (_ & _ & Hh & _ & Hs).
  split; [exact Hh|exact Hs].
Defined.

(** With [n_init = 3] the track is first confirmed by the call that
    brings [hits] to 3: the fourth call of two tracker steps. *)
Lemma confirmed_exactly_when_sample :
  Track.no_retirement (Sample.hit ++ Sample.hit ++ Sample.miss) 4
  /\ Track.first_confirmed_at (Sample.fresh 3 5)
       (Sample.hit ++ Sample.hit ++ Sample.miss) 4.
Proof.
  assert (Track.no_retirement (Sample.hit ++ Sample.hit ++ Sample.miss) 4)
    as Hk by (repeat constructor).
  split; [exact Hk|].
  apply (confirmed_exactly_when tt (10, 2) 1 7 3 5 tt tt tt (Some 40)).
  split; [|exact Hk]. split.
  - vm_compute. intros H. discriminate H.
  - intros j Hj.
    do 4 (destruct j as [|j]; [vm_compute; reflexivity|]).
    exfalso. lia.
Defined.

(** C2 fails on the code: one [update] right after construction gives
    [hits = 2] and [age = 1]. *)
Lemma counters_ordered_counterexample :
  Track.hits (Track.run (Sample.fresh 3 5) [Sample.update]) = 2
  /\ Track.age (Track.run (Sample.fresh 3 5) [Sample.update]) = 1
  /\ ~ Track.counters_ordered
         (Track.run (Sample.fresh 3 5) [Sample.update]).
Proof.
  split; [reflexivity|]. split; [reflexivity|].
  intros [_ H]. vm_compute in H. apply H. reflexivity.
Qed.

(** C1 fails on the code in two ways.  With [n_init = 1], [hits] has
    reached [n_init] at construction, where the track is Tentative; it is
    confirmed by its first [update], with [hits = 2].  With [n_init = 2],
    a [mark_missed] before the [update] that brings [hits] to 2 leaves the
    track Deleted, never Confirmed. *)
Lemma confirmation_counterexample :
  (Track.first_confirmed_at (Sample.fresh 1 5) [Sample.update] 1
   /\ ~ Track.hits_first_reach 1 (Sample.fresh 1 5) [Sample.update] 1
   /\ ~ Track.confirmed_when_hits_reach_n_init
          (Sample.fresh 1 5) [Sample.update])
  /\ (Track.hits_first_reach 2 (Sample.fresh 2 5)
        [Track.MarkMissed; Sample.update] 2
      /\ Track.state
           (Track.run (Sample.fresh 2 5) [Track.MarkMissed; Sample.update])
         = TrackState.Deleted
      /\ ~ Track.confirmed_when_hits_reach_n_init
             (Sample.fresh 2 5) [Track.MarkMissed; Sample.update]).
Proof.
  assert (Track.first_confirmed_at (Sample.fresh 1 5) [Sample.update] 1)
    as Hc1.
  { split; [reflexivity|]. intros j Hj.
    destruct j as [|j]; [reflexivity|]. exfalso. lia. }
  assert (~ Track.hits_first_reach 1 (Sample.fresh 1 5) [Sample.update] 1)
    as Hr1.
  { intros [_ H]. specialize (H 0%nat (Nat.lt_0_succ 0)).
    vm_compute in H. discriminate H. }
  assert (Track.hits_first_reach 2 (Sample.fresh 2 5)
            [Track.MarkMissed; Sample.update] 2) as Hr2.
  { split; [vm_compute; intros E; discriminate E|].
    intros j Hj.
    do 2 (destruct j as [|j]; [vm_compute; reflexivity|]).
    exfalso. lia. }
  split; [split; [exact Hc1|split; [exact Hr1|]]
         |split; [exact Hr2|split; [reflexivity|]]].
  - intros H. apply Hr1, (H 1%nat), Hc1.
  - intros H. apply (H 2%nat) in Hr2. destruct Hr2 as [Hc _].
    vm_compute in Hc. discriminate Hc.
Qed.

(** A mean with fewer than four entries: [ret[3]] raises. *)
Example to_tlwh_short_mean :
  Track.to_tlwh
    (Track.__init__ tt (Numpy.View 0 0 3) tt 7 3 5 tt tt tt None
       : Track.t Numpy.ndarray unit unit unit)
    [[10; 20; 0.5]%float]
  = None.
Proof. reflexivity. Qed.

(** Far from the origin the far corner can coincide with the near one:
    for a box of width and height 1 centred at (1e17, 1e17) both corners
    are (1e17, 1e17), so their difference is (0, 0). *)
Example corners_collapse :
  fst <$> Track.boxes Sample.boxed [[1e17; 1e17; 1; 1; 0; 0; 0; 0]%float]
  = Some ([1e17; 1e17; 1; 1]%float, [1e17; 1e17; 1e17; 1e17]%float)
  /\ PrimFloat.sub 1e17 1e17 = 0%float.
Proof. split; vm_compute; reflexivity. Qed.

(** The two accessors on the sample track. *)
Lemma to_tlbr_matches_to_tlwh_sample :
  Numpy.elems (Numpy.slice (Track.mean Sample.boxed) 0 (Some 4%nat))
    Sample.heap = Some [10; 20; 0.5; 4.2]%float
  /\ exists ext,
       Track.boxes Sample.boxed Sample.heap
       = Some (([8.95; 17.9; 2.1; 4.2]%float,
                [8.95; 17.9; 11.049999999999999; 22.099999999999998]%float),
               Sample.heap ++ ext)
       /\ Numpy.elems (Track.mean Sample.boxed) (Sample.heap ++ ext)
          = Numpy.elems (Track.mean Sample.boxed) Sample.heap.
Proof.
  split; [reflexivity|].
  destruct (to_tlbr_matches_to_tlwh Sample.boxed Sample.heap
              10 20 0.5 4.2 eq_refl) as (ext & Hb & _ & Hm & _).
  exists ext. split; [exact Hb|exact Hm].
Defined.

(** C8 fails on the code: float64 addition rounds, so the far corner
    minus the near corner is not the width and height that were added.
    For the box centred at (10, 20) with aspect ratio 0.5 and height 4.2
    the top-left form is (8.95, 17.9, 2.1, 4.2) and the corner form is
    (8.95, 17.9, 11.049999999999999, 22.099999999999998), whose
    differences are 2.0999999999999996 and 4.199999999999999. *)
Lemma corners_counterexample :
  fst <$> Track.boxes Sample.boxed Sample.heap
  = Some ([8.95; 17.9; 2.1; 4.2]%float,
          [8.95; 17.9; 11.049999999999999; 22.099999999999998]%float)
  /\ ~ Track.corners_consistent
         [8.95; 17.9; 2.1; 4.2]%float
         [8.95; 17.9; 11.049999999999999; 22.099999999999998]%float
  /\ Track.corners_consistent_b
       [8.95; 17.9; 2.1; 4.2]%float
       [8.95; 17.9; 11.049999999999999; 22.099999999999998]%float
     = false
  /\ PrimFloat.sub 11.049999999999999 8.95 = 2.0999999999999996%float
  /\ PrimFloat.sub 22.099999999999998 17.9 = 4.199999999999999%float.
Proof.
  split; [vm_compute; reflexivity|].
  split; [|split; [vm_compute; reflexivity|split; vm_compute; reflexivity]].
  intros (_ & _ & H & _).
  apply (f_equal (fun z => PrimFloat.eqb z 2.1)) in H.
  vm_compute in H. discriminate H.
Qed.

(** * Further properties of the life cycle *)

Section Lifetime.

Context {Mean Covariance Measurement Feature Obj : Type}.

Local Abbreviation track := (Track.t Mean Covariance Feature Obj).
Local Abbreviation filter := (KalmanFilter.t Mean Covariance Measurement).
Local Abbreviation call := (Track.call Mean Covariance Measurement Feature).

Implicit Types (self : track) (kf : filter) (c : call) (cs : list call).

Lemma run_cons self c cs :
  Track.run self (c :: cs) = Track.run (Track.apply self c) cs.
Proof. reflexivity. Qed.

Lemma run_app self cs cs' :
  Track.run self (cs ++ cs') = Track.run (Track.run self cs) cs'.
Proof. unfold Track.run. apply foldl_app. Qed.

(** The fields no method assigns. *)
Lemma apply_same_identity self c :
  Track.track_id (Track.apply self c) = Track.track_id self
  /\ Track._n_init (Track.apply self c) = Track._n_init self
  /\ Track._max_age (Track.apply self c) = Track._max_age self
  /\ Track.cfg (Track.apply self c) = Track.cfg self
  /\ Track.det_confidence (Track.apply self c) = Track.det_confidence self
  /\ Track.det_class (Track.apply self c) = Track.det_class self
  /\ Track.det_best_bbox (Track.apply self c) = Track.det_best_bbox self
  /\ Track.track_line (Track.apply self c) = Track.track_line self.
Proof.
  destruct c as [kf|kf d| |]; simpl.
  - unfold Track.predict.
    destruct (KalmanFilter.predict kf _ _) as [m v]. simpl. tauto.
  - unfold Track.update.
    destruct (KalmanFilter.update kf _ _ _) as [m v]. simpl.
    destruct (_ && _); simpl; tauto.
  - rewrite mark_missed_set_state. simpl. tauto.
  - tauto.
Qed.

Lemma run_max_age self cs :
  Track._max_age (Track.run self cs) = Track._max_age self.
Proof.
  induction cs as [|c cs IH] using rev_ind.
  - reflexivity.
  - rewrite run_snoc.
    pose proof (apply_same_identity (Track.run self cs) c) as (_ & _ & H & _).
    rewrite H. exact IH.
Qed.

Lemma run_track_line self cs :
  Track.track_line (Track.run self cs) = Track.track_line self.
Proof.
  induction cs as [|c cs IH] using rev_ind.
  - reflexivity.
  - rewrite run_snoc.
    destruct (apply_same_identity (Track.run self cs) c)
      as (_ & _ & _ & _ & _ & _ & _ & H).
    rewrite H. exact IH.
Qed.

(** X2: no sequence of calls changes the identifier, the two policy
    parameters [n_init] and [max_age], the configuration, the three
    provenance fields or the track line. *)
Theorem run_same_identity self cs :
  Track.track_id (Track.run self cs) = Track.track_id self
  /\ Track._n_init (Track.run self cs) = Track._n_init self
  /\ Track._max_age (Track.run self cs) = Track._max_age self
  /\ Track.cfg (Track.run self cs) = Track.cfg self
  /\ Track.det_confidence (Track.run self cs) = Track.det_confidence self
  /\ Track.det_class (Track.run self cs) = Track.det_class self
  /\ Track.det_best_bbox (Track.run self cs) = Track.det_best_bbox self
  /\ Track.track_line (Track.run self cs) = Track.track_line self.
Proof.
  induction cs as [|c cs IH] using rev_ind.
  - simpl. tauto.
  - rewrite run_snoc.
    destruct (apply_same_identity (Track.run self cs) c) as (H1 & H2 & H3 & H4 & H5 & H6 & H7 & H8).
    destruct IH as (I1 & I2 & I3 & I4 & I5 & I6 & I7 & I8).
    rewrite H1, H2, H3, H4, H5, H6, H7, H8. tauto.
Qed.

Lemma apply_features self c :
  Track.features (Track.apply self c)
  = Track.features self ++ Track.fed_features [c].
Proof.
  destruct c as [kf|kf d| |]; simpl; rewrite ?app_nil_r.
  - apply (predict_rest self kf).
  - apply (update_rest self kf d).
  - rewrite mark_missed_set_state. reflexivity.
  - reflexivity.
Qed.

(** X3: the feature cache only grows, and only by [update]: after any
    sequence of calls it is the cache before, followed by the features of
    the detections of the [update] calls, in call order. *)
Theorem run_features self cs :
  Track.features (Track.run self cs)
  = Track.features self ++ Track.fed_features cs.
Proof.
  revert self. induction cs as [|c cs IH]; intros self.
  - simpl. rewrite app_nil_r. reflexivity.
  - rewrite run_cons, IH, apply_features, <- app_assoc. f_equal.
    destruct c; reflexivity.
Qed.

Lemma apply_time_since_update_eq self c :
  Track.time_since_update (Track.apply self c)
  = match c with
    | Track.Predict _ => Track.time_since_update self + 1
    | Track.Update _ _ => 0
    | _ => Track.time_since_update self
    end.
Proof.
  destruct c as [kf|kf d| |]; simpl.
  - apply (predict_counters self kf).
  - apply (update_counters self kf d).
  - rewrite mark_missed_set_state. reflexivity.
  - reflexivity.
Qed.

Lemma run_time_since_update_no_update self cs :
  Track.count Track.is_update cs = 0 ->
  Track.time_since_update (Track.run self cs)
  = Track.time_since_update self + Track.count Track.is_predict cs.
Proof.
  induction cs as [|c cs IH] using rev_ind; intros H.
  - simpl. lia.
  - rewrite count_snoc in H.
    pose proof (count_nonneg Track.is_update cs) as Hnn.
    rewrite run_snoc, apply_time_since_update_eq, count_snoc.
    destruct c as [kf|kf d| |]; simpl in *; try lia; rewrite IH; lia.
Qed.

(** X4: [time_since_update] is the number of [predict] calls since the
    last [update]: whatever came before an [update], if no [update]
    follows it then the counter equals the number of [predict] calls that
    follow it. *)
Theorem time_since_update_counts self cs kf
    (d : Detection.t Measurement Feature) (post : list call) :
  Track.count Track.is_update post = 0 ->
  Track.time_since_update
    (Track.run self (cs ++ Track.Update kf d :: post))
  = Track.count Track.is_predict post.
Proof.
  intros H. rewrite run_app, run_cons.
  rewrite (run_time_since_update_no_update _ post H).
  rewrite apply_time_since_update_eq. lia.
Qed.

Lemma apply_value_le self c :
  TrackState.value (Track.state self)
  <= TrackState.value (Track.state (Track.apply self c)).
Proof.
  destruct c as [kf|kf d| |]; simpl.
  - rewrite predict_state. lia.
  - rewrite update_state.
    destruct (Track.state self); simpl; [|lia|lia].
    destruct (_ >=? _); simpl; lia.
  - rewrite mark_missed_state.
    destruct (Track.state self); simpl; try lia;
      destruct (_ >? _); simpl; lia.
  - destruct (Track.state self); simpl; lia.
Qed.

(** X5: the state only moves forward.  Its integer code (Tentative 1,
    Confirmed 2, Deleted 3) never decreases along a sequence of calls, so
    a track that left Tentative is never Tentative again and a Deleted
    track is never Confirmed again. *)
Theorem state_never_decreases self cs :
  TrackState.value (Track.state self)
  <= TrackState.value (Track.state (Track.run self cs)).
Proof.
  induction cs as [|c cs IH] using rev_ind.
  - simpl. lia.
  - rewrite run_snoc.
    pose proof (apply_value_le (Track.run self cs) c). lia.
Qed.

Lemma missed_frames_snoc (kfs : list filter) kf :
  Track.missed_frames (Feature := Feature) (kfs ++ [kf])
  = Track.missed_frames kfs ++ [Track.Predict kf; Track.MarkMissed].
Proof.
  unfold Track.missed_frames. rewrite flat_map_app. reflexivity.
Qed.

(** X6: how many misses a Confirmed track survives.  For a Confirmed
    track whose [time_since_update] does not exceed [max_age], after [k]
    frames of [predict] followed by [mark_missed] the track is Deleted if
    [time_since_update + k > max_age] and still Confirmed otherwise; the
    counter has grown by [k]. *)
Theorem confirmed_miss_tolerance self (kfs : list filter) :
  Track.state self = TrackState.Confirmed ->
  Track.time_since_update self <= Track._max_age self ->
  let after := Track.run self (Track.missed_frames kfs) in
  Track.time_since_update after
  = Track.time_since_update self + Z.of_nat (length kfs)
  /\ Track.state after
     = if Track.time_since_update self + Z.of_nat (length kfs)
          >? Track._max_age self
       then TrackState.Deleted
       else TrackState.Confirmed.
Proof.
  intros Hs Hle. cbv zeta.
  induction kfs as [|kf kfs IH] using rev_ind.
  - change (Track.run self (Track.missed_frames [])) with self.
    change (Z.of_nat (length (@nil filter))) with 0.
    rewrite Z.add_0_r, Hs. split; [reflexivity|].
    destruct (Z.gtb_spec (Track.time_since_update self)
                (Track._max_age self)); [lia|reflexivity].
  - destruct IH as [It Is].
    rewrite missed_frames_snoc, run_app.
    set (t := Track.run self (Track.missed_frames kfs)) in *.
    change (Track.run t [Track.Predict kf; Track.MarkMissed])
      with (Track.mark_missed (Track.predict t kf)).
    pose proof (predict_counters t kf) as (_ & _ & Ht).
    pose proof (predict_rest t kf) as (_ & _ & Hm & _).
    pose proof (run_max_age self (Track.missed_frames kfs))
      as Hmax.
    fold t in Hmax.
    rewrite length_app. simpl length.
    split.
    + rewrite mark_missed_set_state. simpl. lia.
    + rewrite mark_missed_state, predict_state, Ht, Hm, Hmax, Is, It.
      destruct (Z.gtb_spec
                  (Track.time_since_update self + Z.of_nat (length kfs))
                  (Track._max_age self));
        destruct (Z.gtb_spec
                    (Track.time_since_update self
                     + Z.of_nat (length kfs) + 1)
                    (Track._max_age self));
        destruct (Z.gtb_spec
                    (Track.time_since_update self
                     + Z.of_nat (length kfs + 1))
                    (Track._max_age self));
        simpl; try reflexivity; lia.
Qed.

(** X1: the three state queries partition the tracks: for every track
    exactly one of [is_tentative()], [is_confirmed()] and [is_deleted()]
    answers true. *)
Theorem state_queries_partition self :
  (Track.is_tentative self = true
   /\ Track.is_confirmed self = false /\ Track.is_deleted self = false)
  \/ (Track.is_tentative self = false
      /\ Track.is_confirmed self = true /\ Track.is_deleted self = false)
  \/ (Track.is_tentative self = false
      /\ Track.is_confirmed self = false /\ Track.is_deleted self = true).
Proof.
  unfold Track.is_tentative, Track.is_confirmed, Track.is_deleted.
  destruct (Track.state self); simpl; tauto.
Qed.

(** X7: what the state of a track says about its [hits].  After any
    sequence of calls on a new track, a Confirmed track has
    [hits >= n_init] (and at least 2), and a Tentative track has
    [hits < max n_init 2]. *)
Theorem state_bounds_hits (cfg : Obj) (mean : Mean)
    (covariance : Covariance) (track_id n_init max_age : Z)
    (conf cls bbox : Obj) (feature : option Feature) cs :
  let self : track :=
    Track.run
      (Track.__init__ cfg mean covariance track_id n_init max_age
         conf cls bbox feature) cs in
  (Track.is_confirmed self = true ->
   n_init <= Track.hits self /\ 2 <= Track.hits self)
  /\ (Track.is_tentative self = true ->
      Track.hits self < Z.max n_init 2).
Proof.
  cbv zeta.
  set (new := Track.__init__ cfg mean covariance track_id n_init max_age
                conf cls bbox feature).
  rewrite is_confirmed_true, is_tentative_true.
  assert (1 <= Track.hits (Track.run new cs)
          /\ (Track.state (Track.run new cs) = TrackState.Confirmed ->
              Z.max n_init 2 <= Track.hits (Track.run new cs))
          /\ (Track.state (Track.run new cs) = TrackState.Tentative ->
              Track.hits (Track.run new cs) < Z.max n_init 2)) as H.
  { induction cs as [|c cs IH] using rev_ind.
    - simpl. split; [lia|]. split; [discriminate|]. intros _. lia.
    - destruct IH as (Ih & Ic & It).
      pose proof (run_n_init new cs) as Hn. simpl in Hn.
      rewrite run_snoc, apply_hits.
      set (t := Track.run new cs) in *.
      destruct c as [kf|kf d| |]; simpl.
      + rewrite predict_state. repeat split; [lia|intros E|intros E].
        * specialize (Ic E). lia.
        * specialize (It E). lia.
      + rewrite update_state, Hn.
        destruct (Track.state t) eqn:Es; simpl.
        * specialize (It eq_refl).
          destruct (Z.geb_spec (Track.hits t + 1) n_init);
            repeat split; try lia; try discriminate.
        * specialize (Ic eq_refl).
          repeat split; try lia; try discriminate.
        * repeat split; try lia; discriminate.
      + rewrite mark_missed_state.
        destruct (Track.state t) eqn:Es; simpl.
        * repeat split; try lia; discriminate.
        * specialize (Ic eq_refl).
          destruct (_ >? _); repeat split; try lia; discriminate.
        * destruct (_ >? _); repeat split; try lia; discriminate.
      + repeat split; try lia; discriminate. }
  destruct H as (_ & Hc & Ht). split; [|exact Ht].
  intros E. specialize (Hc E). lia.
Qed.

(** X8: how many hits confirm a track.  A new track that has seen no
    [mark_missed] and no [delete] is Confirmed exactly when it has
    received at least [max n_init 2 - 1] calls of [update]: the detection
    that created it counts as the first hit, and the constructor itself
    never confirms. *)
Theorem confirmed_after_updates (cfg : Obj) (mean : Mean)
    (covariance : Covariance) (track_id n_init max_age : Z)
    (conf cls bbox : Obj) (feature : option Feature) cs :
  Forall (fun c => Track.retires c = false) cs ->
  Track.is_confirmed
    (Track.run
       (Track.__init__ cfg mean covariance track_id n_init max_age
          conf cls bbox feature) cs) = true
  <-> Z.max n_init 2 - 1 <= Track.count Track.is_update cs.
Proof.
  intros Hall.
  set (new := Track.__init__ cfg mean covariance track_id n_init max_age
                conf cls bbox feature).
  rewrite is_confirmed_true.
  rewrite (run_state_of_hits new cs eq_refl eq_refl Hall).
  rewrite run_hits. simpl.
  destruct (Z.leb_spec (Z.max n_init 2)
              (1 + Track.count Track.is_update cs)).
  - split; [lia|reflexivity].
  - split; [discriminate|lia].
Qed.

(** X9: [mark_missed] is idempotent in every state: a second call right
    after the first changes nothing. *)
Theorem mark_missed_idempotent self :
  Track.mark_missed (Track.mark_missed self) = Track.mark_missed self.
Proof.
  unfold Track.mark_missed at 2 3.
  destruct (TrackState.eqb (Track.state self) TrackState.Tentative) eqn:E.
  - unfold Track.mark_missed. simpl.
    destruct (_ >? _); reflexivity.
  - destruct (Track.time_since_update self >? Track._max_age self) eqn:G.
    + unfold Track.mark_missed. simpl. rewrite G. reflexivity.
    + unfold Track.mark_missed. rewrite E, G. reflexivity.
Qed.

Lemma framed_counts (n : nat) cs :
  (length cs <= n)%nat ->
  Track.framed cs = true ->
  Track.count Track.is_update cs <= Track.count Track.is_predict cs.
Proof.
  revert cs. induction n as [|n IH]; intros cs Hlen Hf.
  - destruct cs; [simpl; lia|simpl in Hlen; lia].
  - destruct cs as [|c cs]; [simpl; lia|].
    simpl in Hlen.
    pose proof (count_nonneg Track.is_predict cs) as Hp.
    destruct c as [kf|kf d| |].
    + destruct cs as [|c' cs]; [simpl; lia|].
      destruct c' as [kf'|kf' d'| |]; simpl in Hf.
      * specialize (IH (Track.Predict kf' :: cs) ltac:(simpl in *; lia) Hf).
        simpl in IH |- *. lia.
      * simpl in Hlen.
        specialize (IH cs ltac:(simpl in *; lia) Hf). simpl. lia.
      * specialize (IH (Track.MarkMissed :: cs) ltac:(simpl in *; lia) Hf).
        simpl in IH |- *. lia.
      * specialize (IH (Track.Delete :: cs) ltac:(simpl in *; lia) Hf).
        simpl in IH |- *. lia.
    + simpl in Hf. discriminate Hf.
    + specialize (IH cs ltac:(simpl in *; lia) Hf). simpl. lia.
    + specialize (IH cs ltac:(simpl in *; lia) Hf). simpl. lia.
Qed.

(** X10: when every [update] comes right after a [predict], as the
    owning tracker calls them, [age >= hits] is kept: a track with
    [hits <= age] (a new track in particular) still has it after the
    sequence. *)
Theorem framed_keeps_age_above_hits self cs :
  Track.framed cs = true ->
  Track.hits self <= Track.age self ->
  Track.hits (Track.run self cs) <= Track.age (Track.run self cs).
Proof.
  intros Hf Hle. rewrite run_hits, run_age.
  pose proof (framed_counts (length cs) cs (Nat.le_refl _) Hf). lia.
Qed.

(** X11: [time_since_update] stays below [age].  On a new track, after
    any sequence of calls, [0 <= time_since_update < age]; the two are
    one apart exactly as long as no [update] was called. *)
Theorem time_since_update_below_age (cfg : Obj) (mean : Mean)
    (covariance : Covariance) (track_id n_init max_age : Z)
    (conf cls bbox : Obj) (feature : option Feature) cs :
  let self : track :=
    Track.run
      (Track.__init__ cfg mean covariance track_id n_init max_age
         conf cls bbox feature) cs in
  0 <= Track.time_since_update self < Track.age self
  /\ (Track.count Track.is_update cs = 0 ->
      Track.time_since_update self = Track.age self - 1).
Proof.
  cbv zeta.
  set (new := Track.__init__ cfg mean covariance track_id n_init max_age
                conf cls bbox feature).
  split.
  - induction cs as [|c cs IH] using rev_ind.
    + simpl. lia.
    + rewrite run_snoc, apply_time_since_update_eq, apply_age.
      destruct c as [kf|kf d| |]; simpl; lia.
  - intros H.
    rewrite (run_time_since_update_no_update new cs H), run_age.
    simpl. lia.
Qed.

(** X17: what [update] does in every state.  It replaces [mean] and
    [covariance] by the pair the estimator's measurement update returns
    for the detection's [to_xyah()], appends the detection's feature to
    the cache, adds one to [hits], resets [time_since_update] to 0 and
    leaves [age] alone; the state becomes Confirmed if it was Tentative
    and the incremented [hits] is at least [n_init], and is unchanged
    otherwise. *)
Theorem update_effects self kf (d : Detection.t Measurement Feature) :
  (Track.mean (Track.update self kf d),
   Track.covariance (Track.update self kf d))
  = KalmanFilter.update kf (Track.mean self) (Track.covariance self)
      (Detection.to_xyah d)
  /\ Track.features (Track.update self kf d)
     = Track.features self ++ [Detection.feature d]
  /\ Track.hits (Track.update self kf d) = Track.hits self + 1
  /\ Track.time_since_update (Track.update self kf d) = 0
  /\ Track.age (Track.update self kf d) = Track.age self
  /\ Track.state (Track.update self kf d)
     = match Track.state self with
       | TrackState.Tentative =>
           if Track.hits self + 1 >=? Track._n_init self
           then TrackState.Confirmed
           else TrackState.Tentative
       | s => s
       end.
Proof.
  pose proof (update_counters self kf d) as (Hh & Ha & Ht).
  pose proof (update_rest self kf d) as (Hf & _).
  split; [apply update_estimate|].
  split; [exact Hf|]. split; [exact Hh|]. split; [exact Ht|].
  split; [exact Ha|].
  rewrite update_state. destruct (Track.state self); reflexivity.
Qed.

End Lifetime.

(** * Further properties of the bounding-box accessors *)

Section Boxes.

Import Numpy.

Context {Covariance Feature Obj : Type}.

Local Abbreviation track := (Track.t ndarray Covariance Feature Obj).

Implicit Types (self : track) (h ext : heap) (v r : ndarray)
  (xs buf : list float).

Lemma bind_None {A B} (m : M A) (k : A -> M B) h :
  m h = None -> bind m k h = None.
Proof. unfold bind. intros ->. reflexivity. Qed.

Lemma elems_length v h xs : elems v h = Some xs -> length xs = size v.
Proof.
  unfold elems. destruct (h !! base v) as [buf|]; [|discriminate].
  destruct (decide _) as [Hle|]; [|discriminate].
  intros [= <-]. rewrite length_take, length_drop. lia.
Qed.

Lemma first_four_length v h xs :
  elems (slice v 0 (Some 4%nat)) h = Some xs ->
  length xs = Nat.min 4 (size v).
Proof.
  intros He. apply elems_length in He. rewrite He.
  unfold slice. cbn [size]. unfold default. cbn [from_option id]. lia.
Qed.

Lemma getitem_fresh_None h ext i o n j buf :
  ext !! i = Some buf ->
  (o + n <= length buf)%nat ->
  take n (drop o buf) !! j = None ->
  getitem (View (length h + i) o n) j (h ++ ext) = None.
Proof.
  intros Hi Hle Hj. unfold getitem.
  rewrite (bind_Some _ _ _ _ _
             (read_spec _ _ _ (elems_fresh h ext i o n buf Hi Hle))).
  rewrite Hj. reflexivity.
Qed.

Lemma copy_spec v h xs :
  elems v h = Some xs ->
  copy v h = Some (View (length h + 0) 0 (length xs), h ++ [xs]).
Proof.
  intros He. unfold copy.
  rewrite (bind_Some _ _ _ _ _ (read_spec _ _ _ He)).
  unfold alloc. rewrite Nat.add_0_r. reflexivity.
Qed.

(** Either the first four entries of the mean can be read, or [to_tlwh]
    raises. *)
Lemma to_tlwh_cases self h :
  (exists x y a hh,
      elems (slice (Track.mean self) 0 (Some 4%nat)) h = Some [x; y; a; hh])
  \/ Track.to_tlwh self h = None.
Proof.
  destruct (elems (slice (Track.mean self) 0 (Some 4%nat)) h)
    as [xs|] eqn:He.
  - pose proof (first_four_length _ _ _ He) as Hlen.
    destruct xs as [|x [|y [|a [|hh [|z xs]]]]].
    + right. unfold Track.to_tlwh.
      rewrite (bind_Some _ _ _ _ _ (copy_spec _ _ _ He)).
      apply bind_None.
      apply (getitem_fresh_None h [[]] 0 0 0 2 []); reflexivity.
    + right. unfold Track.to_tlwh.
      rewrite (bind_Some _ _ _ _ _ (copy_spec _ _ _ He)).
      apply bind_None.
      apply (getitem_fresh_None h [[x]] 0 0 1 2 [x]); reflexivity.
    + right. unfold Track.to_tlwh.
      rewrite (bind_Some _ _ _ _ _ (copy_spec _ _ _ He)).
      apply bind_None.
      apply (getitem_fresh_None h [[x; y]] 0 0 2 2 [x; y]); reflexivity.
    + right. unfold Track.to_tlwh.
      rewrite (bind_Some _ _ _ _ _ (copy_spec _ _ _ He)).
      rewrite (bind_Some _ _ _ _ _
                 (getitem_fresh h [[x; y; a]] 0 0 3 2 [x; y; a] a
                    eq_refl (Nat.le_refl 3) eq_refl)).
      apply bind_None.
      apply (getitem_fresh_None h [[x; y; a]] 0 0 3 3 [x; y; a]);
        reflexivity.
    + left. eauto.
    + exfalso. cbn [length] in Hlen. lia.
  - right. unfold Track.to_tlwh. apply bind_None.
    unfold copy. apply bind_None. unfold read. rewrite He. reflexivity.
Qed.

(** X12: when the accessors work.  [to_tlwh()] and [to_tlbr()] each
    return a box exactly when the first four entries of the mean can be
    read; otherwise they raise, in particular (an IndexError) whenever
    the mean has fewer than four entries. *)
Theorem accessors_succeed_iff self h :
  (is_Some (Track.to_tlwh self h)
   <-> exists x y a hh,
         elems (slice (Track.mean self) 0 (Some 4%nat)) h
         = Some [x; y; a; hh])
  /\ (is_Some (Track.to_tlbr self h) <-> is_Some (Track.to_tlwh self h))
  /\ ((size (Track.mean self) < 4)%nat ->
      Track.to_tlwh self h = None /\ Track.to_tlbr self h = None).
Proof.
  assert (is_Some (Track.to_tlwh self h)
          <-> exists x y a hh,
                elems (slice (Track.mean self) 0 (Some 4%nat)) h
                = Some [x; y; a; hh]) as Hiff.
  { split.
    - intros [p Hp]. destruct (to_tlwh_cases self h) as [H|H];
        [exact H|congruence].
    - intros (x & y & a & hh & He).
      rewrite (to_tlwh_spec self h x y a hh He). eauto. }
  split; [exact Hiff|]. split.
  - split.
    + intros [p Hp]. destruct (Track.to_tlwh self h) eqn:E; [eauto|].
      unfold Track.to_tlbr in Hp. rewrite (bind_None _ _ _ E) in Hp.
      discriminate Hp.
    + intros Hs. apply Hiff in Hs as (x & y & a & hh & He).
      pose proof (to_tlbr_spec self h x y a hh He) as E. cbv zeta in E.
      rewrite E. eauto.
  - intros Hlt.
    assert (Track.to_tlwh self h = None) as E.
    { destruct (to_tlwh_cases self h) as [(x & y & a & hh & He)|H];
        [|exact H].
      apply first_four_length in He. cbn [length] in He. lia. }
    split; [exact E|]. unfold Track.to_tlbr. apply bind_None, E.
Qed.

(** A write into an array allocated after [h] leaves [h] in place. *)
Lemma write_beyond v xs h ext h2 :
  (length h <= base v)%nat ->
  write v xs (h ++ ext) = Some (tt, h2) ->
  exists ext', h2 = h ++ ext'.
Proof.
  intros Hb. unfold write.
  destruct ((h ++ ext) !! base v) as [buf|]; [|discriminate].
  destruct (decide _); [|discriminate].
  intros [= <-]. eexists. apply insert_app_r_alt, Hb.
Qed.

(** X13: the box returned is the caller's own.  The array that
    [to_tlwh()] or [to_tlbr()] returns is a new one with four entries,
    and storing into any of its entries afterwards changes no array that
    existed before the call: not the mean, nor anything else. *)
Theorem accessor_result_is_fresh self h r h1 :
  Track.to_tlwh self h = Some (r, h1)
  \/ Track.to_tlbr self h = Some (r, h1) ->
  base r = length h /\ offset r = 0%nat /\ size r = 4%nat
  /\ (forall i x h2,
        setitem r i x h1 = Some (tt, h2) ->
        forall v xs, elems v h = Some xs -> elems v h2 = Some xs).
Proof.
  intros Hcall.
  assert (exists ext, r = View (length h + 0) 0 4 /\ h1 = h ++ ext)
    as (ext & -> & ->).
  { destruct (to_tlwh_cases self h) as [(x & y & a & hh & He)|Hn].
    - destruct Hcall as [Hc|Hc].
      + rewrite (to_tlwh_spec self h x y a hh He) in Hc.
        cbv zeta in Hc. injection Hc as <- <-. eauto.
      + pose proof (to_tlbr_spec self h x y a hh He) as E.
        cbv zeta in E. rewrite E in Hc. injection Hc as <- <-. eauto.
    - destruct Hcall as [Hc|Hc]; [congruence|].
      unfold Track.to_tlbr in Hc. rewrite (bind_None _ _ _ Hn) in Hc.
      discriminate Hc. }
  simpl. split; [lia|]. split; [reflexivity|]. split; [reflexivity|].
  intros i x h2 Hset v xs Hv.
  unfold setitem in Hset. destruct (decide _); [|discriminate Hset].
  apply write_beyond in Hset as [ext' ->]; [|simpl; lia].
  apply elems_app, Hv.
Qed.

(** X14: the accessor can be called again.  After a successful
    [to_tlwh()], a second call succeeds too and returns a different array
    holding the same box; the first result still reads as before. *)
Theorem to_tlwh_repeatable self h r1 h1 :
  Track.to_tlwh self h = Some (r1, h1) ->
  exists r2 h2 box,
    Track.to_tlwh self h1 = Some (r2, h2)
    /\ base r2 <> base r1
    /\ elems r1 h1 = Some box
    /\ elems r1 h2 = Some box
    /\ elems r2 h2 = Some box.
Proof.
  intros Hc.
  destruct (to_tlwh_cases self h) as [(x & y & a & hh & He)|Hn];
    [|congruence].
  pose proof (to_tlwh_spec self h x y a hh He) as E1. cbv zeta in E1.
  rewrite E1 in Hc. injection Hc as <- <-.
  set (w := PrimFloat.mul a hh) in *.
  set (r := [PrimFloat.sub x (PrimFloat.div w 2);
             PrimFloat.sub y (PrimFloat.div hh 2); w; hh]) in *.
  set (q := [PrimFloat.div w 2; PrimFloat.div hh 2]) in *.
  pose proof (to_tlwh_spec self (h ++ [r; q]) x y a hh
                (elems_app _ _ _ _ He)) as E2.
  cbv zeta in E2. fold w r q in E2.
  assert (elems (View (length h + 0) 0 4) (h ++ [r; q]) = Some r) as Hr1.
  { apply (elems_fresh h [r; q] 0 0 4 r); [reflexivity|simpl; lia]. }
  eexists _, _, r. split; [exact E2|].
  split; [simpl; rewrite length_app; simpl; lia|].
  split; [exact Hr1|]. split.
  - apply elems_app, Hr1.
  - apply (elems_fresh (h ++ [r; q]) [r; q] 0 0 4 r);
      [reflexivity|simpl; lia].
Qed.

End Boxes.

(** * Drawing the track line *)

Section Trail.

Context {Mean Covariance Measurement Feature Obj Image : Type}.

Variable line : Image -> Z * Z -> Z * Z -> Z * Z * Z -> Z -> option Image.

Local Abbreviation track := (Track.t Mean Covariance Feature Obj).
Local Abbreviation call := (Track.call Mean Covariance Measurement Feature).

Implicit Types (self : track) (image : Image).



(** X16: no method adds a point to the track line, so no track that the
    constructor and the methods produce is ever drawn on: after any
    sequence of calls on a new track, [draw_track_line] returns the
    image unchanged. *)
Theorem draw_track_line_inert (cfg : Obj) (mean : Mean)
    (covariance : Covariance) (track_id n_init max_age : Z)
    (conf cls bbox : Obj) (feature : option Feature)
    (cs : list call) image :
  Track.draw_track_line line
    (Track.run
       (Track.__init__ cfg mean covariance track_id n_init max_age
          conf cls bbox feature) cs) image
  = Some image.
Proof.
  unfold Track.draw_track_line. rewrite run_track_line. reflexivity.
Qed.

End Trail.

(** * The further properties on concrete tracks *)

Lemma time_since_update_counts_sample :
  Track.count Track.is_update [Sample.predict; Track.MarkMissed;
                               Sample.predict] = 0
  /\ Track.time_since_update
       (Track.run (Sample.fresh 3 5)
          (Sample.hit ++ Sample.update
             :: [Sample.predict; Track.MarkMissed; Sample.predict]))
     = 2.
Proof.
  split; [reflexivity|].
  apply (time_since_update_counts (Sample.fresh 3 5) Sample.hit Sample.kf
           (Sample.detection 12 41)
           [Sample.predict; Track.MarkMissed; Sample.predict]).
  reflexivity.
Defined.

(** With [max_age = 5], five missed frames leave a Confirmed track alive
    and the sixth deletes it. *)
Lemma confirmed_miss_tolerance_sample :
  (Track.state (Sample.confirmed 0) = TrackState.Confirmed
   /\ Track.time_since_update (Sample.confirmed 0)
      <= Track._max_age (Sample.confirmed 0))
  /\ Track.state
       (Track.run (Sample.confirmed 0)
          (Track.missed_frames (replicate 5 Sample.kf)))
     = TrackState.Confirmed
  /\ Track.state
       (Track.run (Sample.confirmed 0)
          (Track.missed_frames (replicate 6 Sample.kf)))
     = TrackState.Deleted.
Proof.
  assert (Track.time_since_update (Sample.confirmed 0)
          <= Track._max_age (Sample.confirmed 0)) as Hle.
  { vm_compute. intros H. discriminate H. }
  split; [split; [reflexivity|exact Hle]|]. split.
  - apply (confirmed_miss_tolerance (Sample.confirmed 0)
             (replicate 5 Sample.kf) eq_refl Hle).
  - apply (confirmed_miss_tolerance (Sample.confirmed 0)
             (replicate 6 Sample.kf) eq_refl Hle).
Defined.

Lemma state_bounds_hits_sample :
  Track.is_confirmed (Sample.confirmed 2) = true
  /\ 3 <= Track.hits (Sample.confirmed 2)
  /\ 2 <= Track.hits (Sample.confirmed 2).
Proof.
  split; [reflexivity|].
  apply (state_bounds_hits tt (10, 2) 1 7 3 5 tt tt tt (Some 40)
           (Sample.hit ++ Sample.hit ++ replicate 2 Sample.predict)).
  reflexivity.
Defined.

Lemma confirmed_after_updates_sample :
  Forall (fun c => Track.retires c = false) (Sample.hit ++ Sample.hit)
  /\ Track.is_confirmed
       (Track.run (Sample.fresh 3 5) (Sample.hit ++ Sample.hit)) = true.
Proof.
  assert (Forall (fun c : Track.call (Z * Z) Z Z Z =>
                    Track.retires c = false) (Sample.hit ++ Sample.hit))
    as Hall by (repeat constructor).
  split; [exact Hall|].
  apply (confirmed_after_updates tt (10, 2) 1 7 3 5 tt tt tt (Some 40)
           (Sample.hit ++ Sample.hit) Hall).
  vm_compute. intros H. discriminate H.
Defined.

Lemma framed_keeps_age_above_hits_sample :
  Track.framed (Sample.hit ++ Sample.miss ++ Sample.hit) = true
  /\ Track.hits (Sample.fresh 3 5) <= Track.age (Sample.fresh 3 5)
  /\ Track.hits
       (Track.run (Sample.fresh 3 5)
          (Sample.hit ++ Sample.miss ++ Sample.hit))
     <= Track.age
          (Track.run (Sample.fresh 3 5)
             (Sample.hit ++ Sample.miss ++ Sample.hit)).
Proof.
  assert (Track.hits (Sample.fresh 3 5) <= Track.age (Sample.fresh 3 5))
    as Hle by (vm_compute; intros H; discriminate H).
  split; [reflexivity|]. split; [exact Hle|].
  apply (framed_keeps_age_above_hits (Sample.fresh 3 5)
           (Sample.hit ++ Sample.miss ++ Sample.hit) eq_refl Hle).
Defined.

Lemma time_since_update_below_age_sample :
  Track.count Track.is_update (replicate 3 Sample.predict) = 0
  /\ Track.time_since_update
       (Track.run (Sample.fresh 3 5) (replicate 3 Sample.predict))
     = Track.age
         (Track.run (Sample.fresh 3 5) (replicate 3 Sample.predict)) - 1.
Proof.
  split; [reflexivity|].
  apply (time_since_update_below_age tt (10, 2) 1 7 3 5 tt tt tt (Some 40)
           (replicate 3 Sample.predict)).
  reflexivity.
Defined.

(** A mean with three entries: both accessors raise. *)
Lemma accessors_succeed_iff_sample :
  (Numpy.size (Track.mean (Sample.short_boxed)) < 4)%nat
  /\ Track.to_tlwh Sample.short_boxed Sample.short_heap = None
  /\ Track.to_tlbr Sample.short_boxed Sample.short_heap = None.
Proof.
  assert (Numpy.size (Track.mean (Sample.short_boxed)) < 4)%nat as Hlt
    by (simpl; lia).
  split; [exact Hlt|].
  apply (accessors_succeed_iff Sample.short_boxed Sample.short_heap).
  exact Hlt.
Defined.

Lemma accessor_result_is_fresh_sample :
  Track.to_tlwh Sample.boxed Sample.heap
  = Some (Numpy.View 1 0 4,
          Sample.heap ++ [[8.95; 17.9; 2.1; 4.2]; [1.05; 2.1]]%float)
  /\ Numpy.base (Numpy.View 1 0 4) = length Sample.heap.
Proof.
  assert (Track.to_tlwh Sample.boxed Sample.heap
          = Some (Numpy.View 1 0 4,
                  Sample.heap ++ [[8.95; 17.9; 2.1; 4.2]; [1.05; 2.1]]%float))
    as Hc by (vm_compute; reflexivity).
  split; [exact Hc|].
  apply (accessor_result_is_fresh Sample.boxed Sample.heap _ _
           (or_introl Hc)).
Defined.

Lemma to_tlwh_repeatable_sample :
  Track.to_tlwh Sample.boxed Sample.heap
  = Some (Numpy.View 1 0 4,
          Sample.heap ++ [[8.95; 17.9; 2.1; 4.2]; [1.05; 2.1]]%float)
  /\ exists r2 h2,
       Track.to_tlwh Sample.boxed
         (Sample.heap ++ [[8.95; 17.9; 2.1; 4.2]; [1.05; 2.1]]%float)
       = Some (r2, h2)
       /\ Numpy.base r2 <> 1%nat.
Proof.
  assert (Track.to_tlwh Sample.boxed Sample.heap
          = Some (Numpy.View 1 0 4,
                  Sample.heap ++ [[8.95; 17.9; 2.1; 4.2]; [1.05; 2.1]]%float))
    as Hc by (vm_compute; reflexivity).
  split; [exact Hc|].
  destruct (to_tlwh_repeatable Sample.boxed Sample.heap _ _ Hc)
    as (r2 & h2 & box & H2 & Hne & _).
  exists r2, h2. split; [exact H2|exact Hne].
Defined.
